(** * Context compaction (sample-05/compactor.ts)

    A shallow embedding of [ContextCompactor] and of the part of
    [SessionManager] (sample-02/session.ts) it reads and writes.

    - JavaScript arrays are objects: a [BaseMessage[]] is a reference into a
      store of arrays, so that [push], [slice], [filter] and the aliasing
      between a session and the array handed out by [getMessages] are the
      ones of the source.
    - [threshold] and the usage ratio are IEEE binary64 numbers
      ([PrimFloat]); counts are integers.
    - [await]ed calls run to completion before the next statement: a call of
      the language model either returns the response's content or throws.
    - [encoding.encode] (tiktoken) either returns the token ids of a text or
      throws: it rejects a text that contains a special token.  Every
      estimate of tokens can therefore throw, and so can its callers. *)

From Stdlib Require Import ZArith String List Bool Lia Floats.
From stdpp Require Import gmap strings list.
Import ListNotations.

Set Warnings "-inexact-float".
Local Open Scope string_scope.
Local Open Scope list_scope.

(** ** Messages (@langchain/core/messages, as far as the compactor looks) *)

(** [_getType()] of a message. *)
Inductive MessageType : Type :=
  | human | ai | system | tool | generic | function | remove.

Definition MessageType_eqb (a b : MessageType) : bool :=
  match a, b with
  | human, human | ai, ai | system, system | tool, tool
  | generic, generic | function, function | remove, remove => true
  | _, _ => false
  end.

(** One part of a multi-part payload.  [image_url d]: [type === "image_url"],
    [d] is [image_url?.detail] ([None] when either is missing);
    [text t]: [type === "text"] with its optional [text] field. *)
Inductive ContentItem : Type :=
  | image_url (detail : option string)
  | text (t : option string)
  | other_item (type : string).

(** [msg.content]: a string or an array of parts. *)
Inductive MessageContent : Type :=
  | CString (s : string)
  | CArray (items : list ContentItem).

Record BaseMessage : Type := mkMessage {
  _getType : MessageType;
  content : MessageContent
}.

Definition HumanMessage (s : string) : BaseMessage := mkMessage human (CString s).
Definition AIMessage (s : string) : BaseMessage := mkMessage ai (CString s).
Definition SystemMessage (s : string) : BaseMessage := mkMessage system (CString s).

(** ** JavaScript helpers *)

(** [a || b] on optional strings: [undefined], [null] and the empty string
    are falsy. *)
Definition orString (a : option string) (b : string) : string :=
  match a with
  | Some s => if String.eqb s "" then b else s
  | None => b
  end.

Definition orStringOpt (a b : option string) : option string :=
  match a with
  | Some s => if String.eqb s "" then b else Some s
  | None => b
  end.

(** [if (!id)]: [null] and the empty string are falsy. *)
Definition truthy (id : option string) : option string := orStringOpt id None.



(** The number an integer denotes (round to nearest even; exact below 2^53). *)
Definition Z2number (z : Z) : float :=
  SF2Prim (binary_normalize prec emax z 0 false).

(** [Array.prototype.slice(start, end)] on the elements, integer arguments:
    a negative index counts from the end, both are clamped to the length. *)
Definition relativeIndex (len i : Z) : Z :=
  if (i <? 0)%Z then Z.max (len + i) 0 else Z.min i len.

Definition slice_list {A} (l : list A) (start : Z) (end_ : option Z) : list A :=
  let len := Z.of_nat (length l) in
  let k := relativeIndex len start in
  let final := match end_ with Some e => relativeIndex len e | None => len end in
  take (Z.to_nat (final - k)) (drop (Z.to_nat k) l).

(** [String.prototype.includes]: [needle] occurs somewhere in [s]. *)
Fixpoint includes (s needle : string) : bool :=
  String.prefix needle s ||
  match s with
  | EmptyString => false
  | String _ s' => includes s' needle
  end.

Definition nl : string := String (Ascii.ascii_of_nat 10) EmptyString.

(** ** Options and results *)

Record CompactionOptions : Type := mkOptions {
  contextWindowSize : Z;
  threshold : float;
  preserveRecentCount : Z
}.

(** [Partial<CompactionOptions>] *)
Record PartialCompactionOptions : Type := mkPartial {
  contextWindowSize_opt : option Z;
  threshold_opt : option float;
  preserveRecentCount_opt : option Z
}.

(** A reference to an array of messages in the store. *)
Abbreviation ref := nat (only parsing).

Record CompactionResult : Type := mkResult {
  compacted : bool;
  originalCount : nat;
  compactedCount : nat;
  originalTokens : nat;
  compactedTokens : nat;
  messages : ref
}.

(** sample-03/commands.ts *)
Inductive CommandResult : Type :=
  | prompt (message : string)
  | close
  | executed
  | error (message : string).

(** What a call that can throw yields. *)
Inductive JsError : Type :=
  | Error (message : string).

Inductive Try (A : Type) : Type :=
  | Ok (a : A)
  | Thrown (e : JsError).
Arguments Ok {A} a.
Arguments Thrown {A} e.

(** Statements in sequence: the first exception ends them. *)
#[global] Instance Try_ret : MRet Try := fun A a => Ok a.
#[global] Instance Try_bind : MBind Try := fun A B f t =>
  match t with
  | Ok a => f a
  | Thrown e => Thrown e
  end.
#[global] Instance Try_fmap : FMap Try := fun A B f t =>
  match t with
  | Ok a => Ok (f a)
  | Thrown e => Thrown e
  end.

(** [for (const x of xs) { s = body(s, x) }] over the elements [xs]. *)
Fixpoint forOf {A S : Type} (body : S -> A -> Try S) (xs : list A) (s : S) : Try S :=
  match xs with
  | [] => mret s
  | x :: xs' => s' ← body s x; forOf body xs' s'
  end.

(** ** The compactor object *)

(** [this]: the options and the tiktoken encoding ([encoding.encode], from a
    string to its token ids, or an exception). *)
Record ContextCompactor : Type := mkCompactor {
  options : CompactionOptions;
  encoding : string -> Try (list Z)
}.

Section Constructor.

(** tiktoken's [encoding_for_model], which throws on a model it does not
    know, and [process.env.OPENAI_MODEL]. *)
Variable encoding_for_model : string -> Try (string -> Try (list Z)).
Variable OPENAI_MODEL : option string.


End Constructor.

Definition getOptions (this : ContextCompactor) : CompactionOptions := options this.

Definition updateOptions (this : ContextCompactor) (opts : PartialCompactionOptions)
  : ContextCompactor :=
  let o := options this in
  {| options := {|
       contextWindowSize := default (contextWindowSize o) (contextWindowSize_opt opts);
       threshold := default (threshold o) (threshold_opt opts);
       preserveRecentCount := default (preserveRecentCount o) (preserveRecentCount_opt opts)
     |};
     encoding := encoding this |}.

(** ** estimateTokens *)

(** The body of the loop over the parts of a payload. *)
Definition itemTokens (this : ContextCompactor) (totalTokens : nat) (item : ContentItem)
  : Try nat :=
  match item with
  | image_url d =>
      let detail := orString d "auto" in
      if String.eqb detail "low" then mret (totalTokens + 85) else mret (totalTokens + 400)
  | text t =>
      tokens ← encoding this (orString t "");
      mret (totalTokens + length tokens)
  | other_item _ => mret totalTokens
  end.

(** The body of the loop over the messages. *)
Definition messageTokens (this : ContextCompactor) (totalTokens : nat) (msg : BaseMessage)
  : Try nat :=
  totalTokens ←
    match content msg with
    | CArray items => forOf (itemTokens this) items totalTokens
    | CString s =>
        tokens ← encoding this s;
        mret (totalTokens + length tokens)
    end;
  mret (totalTokens + 4).

Definition estimateTokens (this : ContextCompactor) (messages : list BaseMessage) : Try nat :=
  totalTokens ← forOf (messageTokens this) messages 0;
  mret (totalTokens + 3).

Definition calculateUsageRatio (this : ContextCompactor) (messages : list BaseMessage)
  : Try float :=
  tokens ← estimateTokens this messages;
  mret (Z2number (Z.of_nat tokens) / Z2number (contextWindowSize (options this)))%float.

Definition shouldCompact (this : ContextCompactor) (messages : list BaseMessage) : Try bool :=
  usageRatio ← calculateUsageRatio this messages;
  mret (threshold (options this) <=? usageRatio)%float.

Definition isSystemMessage (m : BaseMessage) : bool :=
  MessageType_eqb (_getType m) system.

(** ** The store: arrays of messages and the session manager's state *)

Module session.
(** sample-02/session.ts; a [Date] is a time stamp. *)
Record SessionMetadata : Type := mkMetadata {
  createdAt : nat;
  updatedAt : nat
}.

Record Session : Type := mkSession {
  id : string;
  messages : ref;
  metadata : SessionMetadata
}.
End session.

(** [arrays]: every message array allocated so far, a reference is an index;
    [sessions], [currentSessionId]: the fields of the one [SessionManager]
    the handlers are given; [now]: what [new Date()] reads. *)
Record World : Type := mkWorld {
  arrays : list (list BaseMessage);
  sessions : gmap string session.Session;
  currentSessionId : option string;
  now : nat
}.

Definition set_arrays (f : list (list BaseMessage) -> list (list BaseMessage)) (w : World) : World :=
  {| arrays := f (arrays w); sessions := sessions w;
     currentSessionId := currentSessionId w; now := now w |}.

Definition with_arrays (w : World) (h : list (list BaseMessage)) : World :=
  set_arrays (fun _ => h) w.

Definition set_sessions (f : gmap string session.Session -> gmap string session.Session)
  (w : World) : World :=
  {| arrays := arrays w; sessions := f (sessions w);
     currentSessionId := currentSessionId w; now := now w |}.

(** How a statement ends: normally, by an exception, or [Stuck], which is
    the model's alone (a reference outside the store, a loop out of fuel);
    [compactMessages_not_stuck] and [handlerCompact_run] show that it does
    not occur on an array of the store. *)
Inductive Outcome (A : Type) : Type :=
  | Return (a : A)
  | Throw (e : JsError)
  | Stuck.
Arguments Return {A} a.
Arguments Throw {A} e.
Arguments Stuck {A}.

Definition M (A : Type) : Type := World -> Outcome A * World.

Definition run {A} (m : M A) (w : World) : Outcome A * World := m w.

#[global] Instance M_ret : MRet M := fun A a w => (Return a, w).
#[global] Instance M_bind : MBind M := fun A B f m w =>
  match m w with
  | (Return a, w') => f a w'
  | (Throw e, w') => (Throw e, w')
  | (Stuck, w') => (Stuck, w')
  end.

Definition throw {A} (e : JsError) : M A := fun w => (Throw e, w).
Definition stuck {A} : M A := fun w => (Stuck, w).
Definition getWorld : M World := fun w => (Return w, w).
Definition modifyWorld (f : World -> World) : M unit := fun w => (Return tt, f w).
Definition liftTry {A} (t : Try A) : M A :=
  match t with Ok a => mret a | Thrown e => throw e end.

(** [[...v]]: a new array. *)
Definition newArray (v : list BaseMessage) : M ref :=
  fun w => (Return (length (arrays w)), set_arrays (fun h => h ++ [v]) w).

(** The elements of the array behind [r], now. *)
Definition readArray (r : ref) : M (list BaseMessage) :=
  fun w => match arrays w !! r with
           | Some v => (Return v, w)
           | None => (Stuck, w)
           end.

(** [r.push(...xs)] *)
Definition push (r : ref) (xs : list BaseMessage) : M unit :=
  fun w => match arrays w !! r with
           | Some v => (Return tt, set_arrays (fun h => <[r := v ++ xs]> h) w)
           | None => (Stuck, w)
           end.

(** [r.slice(start, end)] and [r.filter(p)]: new arrays. *)
Definition slice (r : ref) (start : Z) (end_ : option Z) : M ref :=
  v ← readArray r; newArray (slice_list v start end_).

Definition filterArray (p : BaseMessage -> bool) (r : ref) : M ref :=
  v ← readArray r; newArray (List.filter p v).

(** ** SessionManager *)

Definition getCurrentSessionId : M (option string) :=
  w ← getWorld; mret (currentSessionId w).

Definition getSession (sessionId : option string) : M (option session.Session) :=
  w ← getWorld;
  let id := orStringOpt sessionId (currentSessionId w) in
  match truthy id with
  | None => mret None
  | Some id => mret (sessions w !! id)
  end.

Definition getMessages (sessionId : option string) : M ref :=
  s ← getSession sessionId;
  match s with
  | Some s => mret (session.messages s)
  | None => newArray []
  end.

Definition replaceMessages (messages : ref) (sessionId : option string) : M unit :=
  w ← getWorld;
  let id := orStringOpt sessionId (currentSessionId w) in
  match truthy id with
  | None => throw (Error "활성 세션이 없습니다")
  | Some id =>
      match sessions w !! id with
      | None => throw (Error ("세션을 찾을 수 없습니다: " +:+ id))
      | Some s =>
          (* session.messages = messages; session.metadata.updatedAt = new Date() *)
          modifyWorld (set_sessions (fun m =>
            <[id := {| session.id := session.id s;
                       session.messages := messages;
                       session.metadata :=
                         {| session.createdAt := session.createdAt (session.metadata s);
                            session.updatedAt := now w |} |}]> m))
      end
  end.

(** ** compactMessages and the command handlers *)

Section Compactor.

(** [JSON.stringify] of a multi-part payload, and the language model:
    [new ChatOpenAI(...)] followed by [model.invoke([new
    HumanMessage(prompt)])] returns the response's [content] or throws. *)
Variable stringify : list ContentItem -> string.
Variable invoke : string -> Try MessageContent.

Variable this : ContextCompactor.

Definition contentText (c : MessageContent) : string :=
  match c with
  | CString s => s
  | CArray items => stringify items
  end.

(** *** summarizeMessages *)

Definition roleLabel (type : MessageType) : string :=
  match type with
  | human => "User"
  | ai => "Assistant"
  | system => "System"
  | tool => "Tool"
  | _ => "Unknown"
  end.

Definition conversationOf (messages : list BaseMessage) : string :=
  fold_left (fun conversation msg =>
    conversation +:+ roleLabel (_getType msg) +:+ ": " +:+ contentText (content msg)
      +:+ nl +:+ nl) messages "".

Definition summaryPrompt (conversation : string) : string :=
  "다음은 이전 대화 기록입니다. 이 대화의 핵심 내용을 간결하게 요약해주세요." +:+ nl +:+
  "요약에는 다음 정보가 포함되어야 합니다:" +:+ nl +:+
  "- 사용자가 요청한 주요 작업" +:+ nl +:+
  "- 수행된 작업과 결과" +:+ nl +:+
  "- 중요한 컨텍스트나 결정사항" +:+ nl +:+ nl +:+
  "요약은 한국어로 작성하고, 불필요한 세부사항은 생략하세요." +:+ nl +:+ nl +:+
  "대화 기록:" +:+ nl +:+ conversation +:+ nl +:+ nl +:+ "요약:".

Definition summarizeMessages (messages : list BaseMessage) : M string :=
  response ← liftTry (invoke (summaryPrompt (conversationOf messages)));
  mret (contentText response).

(** *** summarizeAllMessages (system messages are skipped) *)

Definition conversationOfAll (messages : list BaseMessage) : string :=
  fold_left (fun conversation msg =>
    if MessageType_eqb (_getType msg) system then conversation
    else
      let role := match _getType msg with
                  | human => "User" | ai => "Assistant" | tool => "Tool"
                  | _ => "Unknown"
                  end in
      conversation +:+ role +:+ ": " +:+ contentText (content msg) +:+ nl +:+ nl)
    messages "".

Definition summaryPromptAll (conversation : string) : string :=
  "다음 대화 내역을 간결하게 요약해주세요:" +:+ nl +:+ nl +:+
  conversation +:+ nl +:+ nl +:+ "요약:".

Definition summarizeAllMessages (messages : list BaseMessage) : M string :=
  response ← liftTry (invoke (summaryPromptAll (conversationOfAll messages)));
  mret (contentText response).

(** *** compactMessages, step 1: the three arrays (lines 596-620) *)

(** The loop [for (let i = 0; i < messages.length; i++)]: the length and
    the element are read from the store on every turn. *)
Fixpoint separateSystem (fuel : nat) (messages systemMessages : ref) (i : nat)
    (nonSystemMessages : ref) : M ref :=
  match fuel with
  | O => stuck
  | S fuel =>
      ms ← readArray messages;
      if (i <? length ms)%nat then
        match ms !! i with
        | Some m =>
            if isSystemMessage m then
              _ ← push systemMessages [m];
              separateSystem fuel messages systemMessages (S i) nonSystemMessages
            else slice messages (Z.of_nat i) None
        | None => stuck
        end
      else mret nonSystemMessages
  end.

(** "최근 메시지 분리": the last [preserveRecentCount] messages of
    [nonSystemMessages] go to [recentMessages], those before them to
    [middleMessages]. *)
Definition separateRecent (nonSystemMessages middleMessages recentMessages : ref) : M unit :=
  nonSystem ← readArray nonSystemMessages;
  let count := preserveRecentCount (options this) in
  if (count <? Z.of_nat (length nonSystem))%Z then
    let splitIndex := (Z.of_nat (length nonSystem) - count)%Z in
    former ← slice nonSystemMessages 0 (Some splitIndex);
    xs ← readArray former;
    _ ← push middleMessages xs;
    latter ← slice nonSystemMessages splitIndex None;
    ys ← readArray latter;
    push recentMessages ys
  else
    ys ← readArray nonSystemMessages;
    push recentMessages ys.

Definition partitionMessages (messages : ref) : M (ref * ref * ref) :=
  systemMessages ← newArray [];
  middleMessages ← newArray [];
  recentMessages ← newArray [];
  (* "시스템 메시지 분리": let nonSystemMessages = messages; for (...) *)
  ms ← readArray messages;
  nonSystemMessages ← separateSystem (S (length ms)) messages systemMessages 0 messages;
  _ ← separateRecent nonSystemMessages middleMessages recentMessages;
  mret (systemMessages, middleMessages, recentMessages).

(** *** compactMessages *)

Definition unchangedResult (messages : ref) (count originalTokens : nat) : CompactionResult :=
  {| compacted := false;
     originalCount := count;
     compactedCount := count;
     originalTokens := originalTokens;
     compactedTokens := originalTokens;
     messages := messages |}.

Definition summaryMessage (summary : string) : BaseMessage :=
  SystemMessage ("[이전 대화 요약]" +:+ nl +:+ summary).

(** [usageRatio] is computed for the console; [shouldCompact] is called
    only when [force] is false ([!force && !this.shouldCompact(messages)]). *)
Definition compactMessages (messages : ref) (force : bool) : M CompactionResult :=
  msgs ← readArray messages;
  originalTokens ← liftTry (estimateTokens this msgs);
  usageRatio ← liftTry (calculateUsageRatio this msgs);
  unneeded ←
    (if negb force
     then due ← liftTry (shouldCompact this msgs); mret (negb due)
     else mret false);
  if unneeded : bool then
    mret (unchangedResult messages (length msgs) originalTokens)
  else
    '(systemMessages, middleMessages, recentMessages) ← partitionMessages messages;
    middle ← readArray middleMessages;
    if (length middle =? 0)%nat then
      msgs ← readArray messages;
      mret (unchangedResult messages (length msgs) originalTokens)
    else
      summary ← summarizeMessages middle;
      sys ← readArray systemMessages;
      recent ← readArray recentMessages;
      compactedMessages ← newArray (sys ++ [summaryMessage summary] ++ recent);
      cm ← readArray compactedMessages;
      compactedTokens ← liftTry (estimateTokens this cm);
      msgs ← readArray messages;
      mret {| compacted := true;
              originalCount := length msgs;
              compactedCount := length cm;
              originalTokens := originalTokens;
              compactedTokens := compactedTokens;
              messages := compactedMessages |}.

(** *** handlerCompact: the /compact command *)

Definition isContextMessage (m : BaseMessage) : bool :=
  MessageType_eqb (_getType m) human &&
  match content m with
  | CString s => includes s "cocoagent.md"
  | CArray _ => false
  end.

Definition summaryReply (summary : string) : BaseMessage :=
  AIMessage ("[이전 대화 요약]" +:+ nl +:+ summary).

(** [context_sessionId] is [context?.sessionId].  The counts and the token
    estimates are computed after the replacement, for the console; the
    handler returns once both estimates have returned. *)
Definition handlerCompact (_args : string) (context_sessionId : option string)
  : M CommandResult :=
  current ← getCurrentSessionId;
  let sessionId := orStringOpt context_sessionId current in
  messages ← getMessages sessionId;
  msgs ← readArray messages;
  let originalCount := length msgs in
  summary ← summarizeAllMessages msgs;
  systemMessages ← filterArray isSystemMessage messages;
  contextMessages ← filterArray isContextMessage messages;
  sys ← readArray systemMessages;
  ctx ← readArray contextMessages;
  newMessages ← newArray (sys ++ ctx ++ [summaryReply summary]);
  _ ← replaceMessages newMessages sessionId;
  new ← readArray newMessages;
  msgs ← readArray messages;
  let newCount := length new in
  originalTokens ← liftTry (estimateTokens this msgs);
  newTokens ← liftTry (estimateTokens this new);
  mret executed.

End Compactor.

(** ** What the statements above compute, as functions on the elements

    These are not taken from the source: they describe the runs of the
    definitions above and are proved to do so below. *)

(** The number of tokens of a text the tokenizer accepts. *)
Definition encodedLength (this : ContextCompactor) (s : string) : nat :=
  match encoding this s with
  | Ok tokens => length tokens
  | Thrown _ => 0
  end.

(** What one part adds to the estimate, whatever the running total, and what
    a payload adds. *)
Definition partCost (this : ContextCompactor) (item : ContentItem) : nat :=
  match item with
  | image_url d => if String.eqb (orString d "auto") "low" then 85 else 400
  | text t => encodedLength this (orString t "")
  | other_item _ => 0
  end.

Definition contentCost (this : ContextCompactor) (c : MessageContent) : nat :=
  match c with
  | CArray items => list_sum (map (partCost this) items)
  | CString s => encodedLength this s
  end.

(** The estimate without the per-call overhead. *)
Definition tokenCost (this : ContextCompactor) (messages : list BaseMessage) : nat :=
  list_sum (map (fun m => contentCost this (content m) + 4) messages).

(** The exception of the first text the tokenizer rejects, in the order in
    which [estimateTokens] encodes the texts. *)
Definition textError (this : ContextCompactor) (s : string) : option JsError :=
  match encoding this s with
  | Ok _ => None
  | Thrown e => Some e
  end.

Definition partError (this : ContextCompactor) (item : ContentItem) : option JsError :=
  match item with
  | text t => textError this (orString t "")
  | _ => None
  end.

Fixpoint firstError {A : Type} (f : A -> option JsError) (xs : list A) : option JsError :=
  match xs with
  | [] => None
  | x :: xs' =>
      match f x with
      | Some e => Some e
      | None => firstError f xs'
      end
  end.

Definition contentError (this : ContextCompactor) (c : MessageContent) : option JsError :=
  match c with
  | CArray items => firstError (partError this) items
  | CString s => textError this s
  end.

Definition encodeError (this : ContextCompactor) (messages : list BaseMessage)
  : option JsError :=
  firstError (fun m => contentError this (content m)) messages.

(** [tokens / contextWindowSize], as numbers. *)
Definition occupancy (this : ContextCompactor) (tokens : nat) : float :=
  (Z2number (Z.of_nat tokens) / Z2number (contextWindowSize (options this)))%float.

(** The longest prefix of system messages, and what follows it. *)
Fixpoint leadingSystem (ms : list BaseMessage) : list BaseMessage :=
  match ms with
  | m :: ms' => if isSystemMessage m then m :: leadingSystem ms' else []
  | [] => []
  end.

Fixpoint afterSystem (ms : list BaseMessage) : list BaseMessage :=
  match ms with
  | m :: ms' => if isSystemMessage m then afterSystem ms' else ms
  | [] => []
  end.

(** The elements of [nonSystemMessages] when the loop of step 1 ends: the
    slice taken at the first message that is not a system message, or, when
    the loop never reaches its [else] branch, [messages] itself. *)
Definition nonSystemOf (ms : list BaseMessage) : list BaseMessage :=
  if forallb isSystemMessage ms then ms else afterSystem ms.

Definition middleOf (this : ContextCompactor) (ms : list BaseMessage) : list BaseMessage :=
  let non := nonSystemOf ms in
  let count := preserveRecentCount (options this) in
  if (count <? Z.of_nat (length non))%Z
  then slice_list non 0 (Some (Z.of_nat (length non) - count)%Z)
  else [].

Definition recentOf (this : ContextCompactor) (ms : list BaseMessage) : list BaseMessage :=
  let non := nonSystemOf ms in
  let count := preserveRecentCount (options this) in
  if (count <? Z.of_nat (length non))%Z
  then slice_list non (Z.of_nat (length non) - count)%Z None
  else non.

(** The arrays step 1 allocates, in order: [systemMessages],
    [middleMessages], [recentMessages] (with their final elements), then the
    results of the calls of [slice]. *)
Definition partitionArrays (this : ContextCompactor) (ms : list BaseMessage)
  : list (list BaseMessage) :=
  let non := nonSystemOf ms in
  let count := preserveRecentCount (options this) in
  [leadingSystem ms; middleOf this ms; recentOf this ms] ++
  (if forallb isSystemMessage ms then [] else [non]) ++
  (if (count <? Z.of_nat (length non))%Z
   then [middleOf this ms; recentOf this ms] else []).

(** [w'] is [w] with more arrays allocated: every array of [w] is where it
    was and holds what it held, and the session manager is as it was. *)
Definition extends (w w' : World) : Prop :=
  exists more, w' = set_arrays (fun h => h ++ more) w.

(** The elements of the array a session holds ([getMessages], read). *)
Definition sessionMessages (w : World) (sessionId : option string) : list BaseMessage :=
  match truthy (orStringOpt sessionId (currentSessionId w)) with
  | Some id =>
      match sessions w !! id with
      | Some s => default [] (arrays w !! session.messages s)
      | None => []
      end
  | None => []
  end.

(** A session after [replaceMessages]. *)
Definition replacedSession (s : session.Session) (messages : ref) (time : nat)
  : session.Session :=
  {| session.id := session.id s;
     session.messages := messages;
     session.metadata :=
       {| session.createdAt := session.createdAt (session.metadata s);
          session.updatedAt := time |} |}.

(** Every session holds an array of the store. *)
Definition sessionsValid (w : World) : Prop :=
  forall id s, sessions w !! id = Some s -> session.messages s < length (arrays w).

(** ** Concrete collaborators, for running the definitions *)

(** An encoding with one token per byte, which accepts every text. *)
Definition byteEncoding (s : string) : Try (list Z) :=
  Ok (map (fun a => Z.of_nat (Ascii.nat_of_ascii a)) (list_ascii_of_string s)).


(** The same encoding, rejecting a text that contains the special token
    [<|endoftext|>], as tiktoken's [encode] does when called with a text
    only. *)
Definition disallowedSpecialToken : JsError :=
  Error "The text contains a special token that is not allowed".

Definition strictEncoding (s : string) : Try (list Z) :=
  if includes s "<|endoftext|>" then Thrown disallowedSpecialToken else byteEncoding s.

Definition sampleCompactor : ContextCompactor :=
  {| options := {| contextWindowSize := 1000; threshold := 0.7; preserveRecentCount := 2 |};
     encoding := byteEncoding |}.

Definition strictCompactor : ContextCompactor :=
  {| options := {| contextWindowSize := 1000; threshold := 0.7; preserveRecentCount := 2 |};
     encoding := strictEncoding |}.

Definition sampleStringify (items : list ContentItem) : string := "[]".

(** A model that answers every prompt with the same text, and one that is
    unreachable. *)
Definition answering (reply : string) (prompt : string) : Try MessageContent :=
  Ok (CString reply).

Definition unreachable (prompt : string) : Try MessageContent :=
  Thrown (Error "Connection error.").

(** Two system messages, the injected project context, and twenty messages
    of conversation. *)
Definition scenarioC : list BaseMessage :=
  [SystemMessage "You are a coding agent."; SystemMessage "Answer briefly.";
   HumanMessage "Project context from cocoagent.md: a TypeScript tutorial."]
  ++ flat_map (fun i => [HumanMessage ("q" +:+ i); AIMessage ("a" +:+ i)])
       ["1"; "2"; "3"; "4"; "5"; "6"; "7"; "8"; "9"; "10"].

(** A store with one session, ["s1"], the current one, holding [ms]. *)
Definition sampleWorld (ms : list BaseMessage) : World :=
  {| arrays := [ms];
     sessions := <["s1" := session.mkSession "s1" 0 (session.mkMetadata 0 0)]> ∅;
     currentSessionId := Some "s1";
     now := 7 |}.

(** ** The rest of SessionManager (sample-02/session.ts) *)

Definition set_currentSessionId (c : option string) (w : World) : World :=
  {| arrays := arrays w; sessions := sessions w; currentSessionId := c; now := now w |}.

(** [Partial<SessionMetadata>], for the two fields a session keeps here. *)
Record PartialSessionMetadata : Type := mkPartialMetadata {
  createdAt_opt : option nat;
  updatedAt_opt : option nat
}.

(** A session with [metadata.updatedAt] set. *)
Definition touched (s : session.Session) (time : nat) : session.Session :=
  {| session.id := session.id s;
     session.messages := session.messages s;
     session.metadata :=
       {| session.createdAt := session.createdAt (session.metadata s);
          session.updatedAt := time |} |}.

(** [generated] is what [generateSessionId()] would return (it reads the
    clock and [Math.random]); it is used when no id is given. *)
Definition createSession (generated : string) (sessionId : option string)
    (metadata : PartialSessionMetadata) : M string :=
  let id := orString sessionId generated in
  messages ← newArray [];
  w ← getWorld;
  let session :=
    {| session.id := id;
       session.messages := messages;
       session.metadata :=
         {| session.createdAt := default (now w) (createdAt_opt metadata);
            session.updatedAt := default (now w) (updatedAt_opt metadata) |} |} in
  _ ← modifyWorld (set_sessions (fun m => <[id := session]> m));
  _ ← modifyWorld (set_currentSessionId (Some id));
  mret id.

Definition hasSession (sessionId : string) : M bool :=
  w ← getWorld; mret (bool_decide (is_Some (sessions w !! sessionId))).

Definition setCurrentSession (sessionId : string) : M bool :=
  w ← getWorld;
  if negb (bool_decide (is_Some (sessions w !! sessionId))) then mret false
  else
    _ ← modifyWorld (set_currentSessionId (Some sessionId));
    mret true.

Definition addMessage (message : BaseMessage) (sessionId : option string) : M unit :=
  w ← getWorld;
  let id := orStringOpt sessionId (currentSessionId w) in
  match truthy id with
  | None => throw (Error "활성 세션이 없습니다")
  | Some id =>
      match sessions w !! id with
      | None => throw (Error ("세션을 찾을 수 없습니다: " +:+ id))
      | Some s =>
          _ ← push (session.messages s) [message];
          modifyWorld (set_sessions (fun m => <[id := touched s (now w)]> m))
      end
  end.

(** [for (const message of messages) this.addMessage(message, sessionId)]:
    the array iterator reads the length and the element on every turn. *)
Fixpoint addMessagesFrom (fuel : nat) (messages : ref) (i : nat)
    (sessionId : option string) : M unit :=
  match fuel with
  | O => stuck
  | S fuel =>
      ms ← readArray messages;
      match ms !! i with
      | Some message =>
          _ ← addMessage message sessionId;
          addMessagesFrom fuel messages (S i) sessionId
      | None => mret tt
      end
  end.

Definition addMessages (messages : ref) (sessionId : option string) : M unit :=
  ms ← readArray messages;
  addMessagesFrom (S (length ms)) messages 0 sessionId.

Definition getMessageCount (sessionId : option string) : M nat :=
  messages ← getMessages sessionId;
  ms ← readArray messages;
  mret (length ms).

(** [messages.slice(-count)] *)
Definition getLastMessages (count : Z) (sessionId : option string) : M ref :=
  messages ← getMessages sessionId;
  slice messages (- count) None.

Definition clearSession (sessionId : option string) : M unit :=
  w ← getWorld;
  let id := orStringOpt sessionId (currentSessionId w) in
  match truthy id with
  | None => mret tt
  | Some id =>
      match sessions w !! id with
      | None => mret tt
      | Some s =>
          messages ← newArray [];
          modifyWorld (set_sessions (fun m =>
            <[id := replacedSession s messages (now w)]> m))
      end
  end.

Definition deleteSession (sessionId : string) : M bool :=
  w ← getWorld;
  let deleted := bool_decide (is_Some (sessions w !! sessionId)) in
  _ ← modifyWorld (set_sessions (fun m => delete sessionId m));
  _ ← (if deleted && bool_decide (currentSessionId w = Some sessionId)
       then modifyWorld (set_currentSessionId None)
       else mret tt);
  mret deleted.

Definition getSessionCount : M nat :=
  w ← getWorld; mret (size (sessions w)).

(** ** The /status handler and the compact node *)

Section Callers.

Variable stringify : list ContentItem -> string.
Variable invoke : string -> Try MessageContent.
Variable this : ContextCompactor.

(** The figures are computed for the console. *)
Definition handlerStatus (_args : string) (context_sessionId : option string)
  : M CommandResult :=
  current ← getCurrentSessionId;
  let sessionId := orStringOpt context_sessionId current in
  messages ← getMessages sessionId;
  msgs ← readArray messages;
  tokens ← liftTry (estimateTokens this msgs);
  let ratio := (Z2number (Z.of_nat tokens)
                / Z2number (contextWindowSize (options this)) * 100)%float in
  let recommended := (threshold (options this) * 100 <=? ratio)%float in
  mret executed.

(** sample-05/index.ts, [createCompactNode]: the node of the graph that
    compacts the session [state.sessionId]; it returns [{}]. *)
Definition createCompactNode (state_sessionId : string) : M unit :=
  messages_ ← getMessages (Some state_sessionId);
  result ← compactMessages stringify invoke this messages_ false;
  if compacted result
  then replaceMessages (messages result) (Some state_sessionId)
  else mret tt.

End Callers.

(** ** The command registry (sample-03/commands.ts) *)

Module commands.

Inductive CommandType : Type := type_template | type_lambda.

(** [context] is read for its [sessionId] only. *)
Definition CommandLambda : Type := string -> option string -> M CommandResult.

Record CommandHandler : Type := mkHandler {
  type : CommandType;
  description : string;
  template : option string;
  handler : option CommandLambda
}.

End commands.

Section Registry.

(** [template.replace(/\$\{ARGUMENTS\}/g, args)] *)
Variable replaceArguments : string -> string -> string.

(** [this.commands.set(commandName, {type: "lambda", description, handler})] *)
Definition register (registry : gmap string commands.CommandHandler)
    (commandName : string) (handler : commands.CommandLambda) (description : string)
  : gmap string commands.CommandHandler :=
  <[commandName := {| commands.type := commands.type_lambda;
                      commands.description := description;
                      commands.template := None;
                      commands.handler := Some handler |}]> registry.

Definition execute (registry : gmap string commands.CommandHandler)
    (commandName args : string) (context_sessionId : option string) : M CommandResult :=
  match registry !! commandName with
  | None => mret (error ("❌ 명령어를 찾을 수 없습니다: " +:+ commandName))
  | Some command =>
      match commands.type command with
      | commands.type_template =>
          match truthy (commands.template command) with
          | None => mret (error ("❌ 템플릿이 없습니다: " +:+ commandName))
          | Some template => mret (prompt (replaceArguments template args))
          end
      | commands.type_lambda =>
          match commands.handler command with
          | None => mret (error ("❌ 핸들러가 없습니다: " +:+ commandName))
          | Some handler => handler args context_sessionId
          end
      end
  end.

End Registry.

(** ** Further collaborators for running the definitions *)

(** A store with two sessions; ["s1"] is the current one. *)
Definition twoSessions (first second : list BaseMessage) : World :=
  {| arrays := [first; second];
     sessions := <["s1" := session.mkSession "s1" 0 (session.mkMetadata 0 0)]>
                   (<["s2" := session.mkSession "s2" 1 (session.mkMetadata 1 1)]> ∅);
     currentSessionId := Some "s1";
     now := 7 |}.

(** * Properties *)

(** ** Message types and strings *)

Lemma MessageType_eqb_eq a b : MessageType_eqb a b = true <-> a = b.
Proof. destruct a, b; simpl; split; (congruence || discriminate). Qed.

Lemma isSystemMessage_true m : isSystemMessage m = true <-> _getType m = system.
Proof. apply MessageType_eqb_eq. Qed.

Lemma isSystemMessage_false m : isSystemMessage m = false <-> _getType m <> system.
Proof.
  rewrite <- isSystemMessage_true. destruct (isSystemMessage m); split; congruence.
Qed.

Lemma append_cons a s t : String a s +:+ t = String a (s +:+ t).
Proof. reflexivity. Qed.

Lemma append_nil t : "" +:+ t = t.
Proof. reflexivity. Qed.

Lemma prefix_true_app needle s :
  String.prefix needle s = true <-> exists rest, s = needle +:+ rest.
Proof.
  revert s. induction needle as [|a needle IH]; intros s.
  - split; [intros _; exists s; reflexivity | intros _; destruct s; reflexivity].
  - destruct s as [|b s]; simpl.
    + split; [discriminate | intros [rest H]; discriminate].
    + destruct (Ascii.ascii_dec a b) as [->|Hne].
      * rewrite IH. split; intros [rest H]; exists rest.
        -- rewrite append_cons. congruence.
        -- rewrite append_cons in H. congruence.
      * split; [discriminate | intros [rest H]; rewrite append_cons in H; congruence].
Qed.

(** [includes] finds exactly the strings that contain the needle. *)
Lemma includes_true s needle :
  includes s needle = true <-> exists before after, s = before +:+ needle +:+ after.
Proof.
  induction s as [|a s IH].
  - change (includes "" needle) with (String.prefix needle "" || false).
    rewrite orb_false_r, prefix_true_app. split.
    + intros [rest H]. exists "", rest. exact H.
    + intros [before [after H]]. destruct before as [|b before].
      * rewrite append_nil in H. eauto.
      * rewrite append_cons in H. discriminate.
  - change (includes (String a s) needle)
      with (String.prefix needle (String a s) || includes s needle).
    rewrite orb_true_iff, prefix_true_app, IH. split.
    + intros [[rest H] | [before [after H]]].
      * exists "", rest. exact H.
      * exists (String a before), after. rewrite append_cons. congruence.
    + intros [before [after H]]. destruct before as [|b before].
      * left. rewrite append_nil in H. eauto.
      * right. rewrite append_cons in H. exists before, after. congruence.
Qed.

(** ** Numbers: how [<], [==] and [<=] relate on binary64 *)

Lemma SFcompare_antisym x y :
  SFcompare y x = option_map CompOpp (SFcompare x y).
Proof.
  destruct x as [sx|sx| |sx mx ex], y as [sy|sy| |sy my ey]; simpl;
    try reflexivity;
    try (destruct sx; reflexivity); try (destruct sy; reflexivity);
    try (destruct sx, sy; reflexivity).
  pose proof (Pos.compare_cont_antisym mx my Eq) as Hm. simpl in Hm.
  destruct sx, sy; simpl; try reflexivity;
    rewrite (Z.compare_antisym ex ey);
    destruct (ex ?= ey)%Z; simpl; try reflexivity;
    rewrite <- Hm; destruct (Pos.compare_cont Eq mx my); reflexivity.
Qed.

Lemma number_ltb_not_geb (x y : float) :
  (x <? y)%float = true -> (y <=? x)%float = false.
Proof.
  rewrite FloatAxioms.ltb_spec, FloatAxioms.leb_spec. unfold SFltb, SFleb.
  rewrite (SFcompare_antisym (Prim2SF x) (Prim2SF y)).
  destruct (SFcompare (Prim2SF x) (Prim2SF y)) as [[ | | ]|]; simpl; congruence.
Qed.

Lemma number_leb_iff (x y : float) :
  (x <=? y)%float = true <-> (x <? y)%float = true \/ (x =? y)%float = true.
Proof.
  rewrite FloatAxioms.ltb_spec, FloatAxioms.leb_spec, FloatAxioms.eqb_spec. unfold SFltb, SFleb, SFeqb.
  destruct (SFcompare (Prim2SF x) (Prim2SF y)) as [[ | | ]|]; simpl; intuition congruence.
Qed.

Lemma number_eqb_sym (x y : float) : (x =? y)%float = (y =? x)%float.
Proof.
  rewrite !FloatAxioms.eqb_spec. unfold SFeqb.
  rewrite (SFcompare_antisym (Prim2SF x) (Prim2SF y)).
  destruct (SFcompare (Prim2SF x) (Prim2SF y)) as [[ | | ]|]; reflexivity.
Qed.

(** ** estimateTokens is a sum over the messages, or the first exception *)

Section Tokens.

Variable this : ContextCompactor.

Lemma itemTokens_acc total item :
  itemTokens this total item =
  match partError this item with
  | Some e => Thrown e
  | None => Ok (total + partCost this item)
  end.
Proof.
  destruct item as [d|t|ty]; simpl.
  - destruct (String.eqb (orString d "auto") "low"); reflexivity.
  - unfold textError, encodedLength. destruct (encoding this (orString t "")); reflexivity.
  - rewrite Nat.add_0_r. reflexivity.
Qed.

Lemma forOf_itemTokens items total :
  forOf (itemTokens this) items total =
  match firstError (partError this) items with
  | Some e => Thrown e
  | None => Ok (total + list_sum (map (partCost this) items))
  end.
Proof.
  revert total. induction items as [|item items IH]; intros total; simpl.
  - rewrite Nat.add_0_r. reflexivity.
  - rewrite itemTokens_acc. destruct (partError this item) as [e|]; [reflexivity|].
    simpl. rewrite IH. destruct (firstError (partError this) items); [reflexivity|].
    f_equal. lia.
Qed.

Lemma messageTokens_acc total msg :
  messageTokens this total msg =
  match contentError this (content msg) with
  | Some e => Thrown e
  | None => Ok (total + (contentCost this (content msg) + 4))
  end.
Proof.
  unfold messageTokens, contentError, contentCost. destruct (content msg) as [s|items].
  - unfold textError, encodedLength. destruct (encoding this s); simpl; [|reflexivity].
    f_equal. lia.
  - rewrite forOf_itemTokens. destruct (firstError (partError this) items); simpl;
      [reflexivity|]. f_equal. lia.
Qed.

Lemma tokenCost_cons m ms :
  tokenCost this (m :: ms) = contentCost this (content m) + 4 + tokenCost this ms.
Proof. reflexivity. Qed.

Lemma tokenCost_app xs ys :
  tokenCost this (xs ++ ys) = tokenCost this xs + tokenCost this ys.
Proof. unfold tokenCost. rewrite map_app, list_sum_app. reflexivity. Qed.

Lemma firstError_app {A} (f : A -> option JsError) xs ys :
  firstError f (xs ++ ys) =
  match firstError f xs with
  | Some e => Some e
  | None => firstError f ys
  end.
Proof.
  induction xs as [|x xs IH]; simpl; [reflexivity|].
  destruct (f x); [reflexivity|exact IH].
Qed.

Lemma encodeError_app xs ys :
  encodeError this (xs ++ ys) =
  match encodeError this xs with
  | Some e => Some e
  | None => encodeError this ys
  end.
Proof. apply firstError_app. Qed.

Lemma encodeError_cons m ms :
  encodeError this (m :: ms) =
  match contentError this (content m) with
  | Some e => Some e
  | None => encodeError this ms
  end.
Proof. reflexivity. Qed.

Lemma forOf_messageTokens ms total :
  forOf (messageTokens this) ms total =
  match encodeError this ms with
  | Some e => Thrown e
  | None => Ok (total + tokenCost this ms)
  end.
Proof.
  unfold encodeError. revert total. induction ms as [|m ms IH]; intros total; simpl.
  - rewrite Nat.add_0_r. reflexivity.
  - rewrite messageTokens_acc. destruct (contentError this (content m)) as [e|]; [reflexivity|].
    simpl. rewrite IH. destruct (firstError _ ms); [reflexivity|].
    rewrite tokenCost_cons. f_equal. lia.
Qed.

(** The estimate is the exception of the first text that is rejected, or
    the sum of what the messages cost, plus 3. *)
Lemma estimateTokens_cost ms :
  estimateTokens this ms =
  match encodeError this ms with
  | Some e => Thrown e
  | None => Ok (tokenCost this ms + 3)
  end.
Proof.
  unfold estimateTokens. rewrite forOf_messageTokens.
  destruct (encodeError this ms); reflexivity.
Qed.

Lemma estimateTokens_Ok ms n :
  estimateTokens this ms = Ok n <-> encodeError this ms = None /\ n = tokenCost this ms + 3.
Proof.
  rewrite estimateTokens_cost. destruct (encodeError this ms); split.
  - discriminate.
  - intros [H _]. discriminate.
  - intros H. injection H as <-. auto.
  - intros [_ ->]. reflexivity.
Qed.

Lemma estimateTokens_Thrown ms e :
  estimateTokens this ms = Thrown e <-> encodeError this ms = Some e.
Proof.
  rewrite estimateTokens_cost. destruct (encodeError this ms); split; congruence.
Qed.

(** An estimate of a history gives one of each of its parts. *)
Lemma estimateTokens_app_Ok xs ys n :
  estimateTokens this (xs ++ ys) = Ok n <->
  exists nx ny,
    estimateTokens this xs = Ok nx /\ estimateTokens this ys = Ok ny /\ n + 3 = nx + ny.
Proof.
  rewrite estimateTokens_Ok, encodeError_app, tokenCost_app. split.
  - intros [He ->]. destruct (encodeError this xs) eqn:Ex; [discriminate|].
    exists (tokenCost this xs + 3), (tokenCost this ys + 3).
    rewrite !estimateTokens_Ok. repeat split; auto. lia.
  - intros [nx [ny [Hx [Hy Hn]]]]. apply estimateTokens_Ok in Hx, Hy.
    destruct Hx as [-> ->], Hy as [-> ->]. split; [reflexivity|lia].
Qed.

Lemma calculateUsageRatio_Ok ms tokens :
  estimateTokens this ms = Ok tokens ->
  calculateUsageRatio this ms = Ok (occupancy this tokens).
Proof. intros H. unfold calculateUsageRatio. rewrite H. reflexivity. Qed.

Lemma shouldCompact_Ok ms tokens :
  estimateTokens this ms = Ok tokens ->
  shouldCompact this ms = Ok (threshold (options this) <=? occupancy this tokens)%float.
Proof.
  intros H. unfold shouldCompact. rewrite (calculateUsageRatio_Ok _ _ H). reflexivity.
Qed.

Lemma shouldCompact_Thrown ms e :
  estimateTokens this ms = Thrown e -> shouldCompact this ms = Thrown e.
Proof. intros H. unfold shouldCompact, calculateUsageRatio. rewrite H. reflexivity. Qed.

End Tokens.

(** ** Running the primitives *)

Lemma with_arrays_id w : with_arrays w (arrays w) = w.
Proof. destruct w; reflexivity. Qed.

Lemma bind_ret {A B} (a : A) (f : A -> M B) w : (mret a ≫= f) w = f a w.
Proof. reflexivity. Qed.

Lemma bind_liftTry_Ok {A B} (a : A) (f : A -> M B) w : (liftTry (Ok a) ≫= f) w = f a w.
Proof. reflexivity. Qed.

Lemma bind_liftTry_Thrown {A B} e (f : A -> M B) w :
  (liftTry (Thrown e) ≫= f) w = (Throw e, w).
Proof. reflexivity. Qed.

Lemma bind_readArray {B} r v (f : list BaseMessage -> M B) w :
  arrays w !! r = Some v -> (readArray r ≫= f) w = f v w.
Proof. intros H. unfold mbind, M_bind, readArray. rewrite H. reflexivity. Qed.

Lemma bind_newArray {B} v (f : ref -> M B) w :
  (newArray v ≫= f) w = f (length (arrays w)) (with_arrays w (arrays w ++ [v])).
Proof. reflexivity. Qed.

Lemma bind_push {B} r v xs (f : unit -> M B) w :
  arrays w !! r = Some v ->
  (push r xs ≫= f) w = f tt (with_arrays w (<[r := v ++ xs]> (arrays w))).
Proof. intros H. unfold mbind, M_bind, push. rewrite H. reflexivity. Qed.

Lemma bind_slice {B} r v start end_ (f : ref -> M B) w :
  arrays w !! r = Some v ->
  (slice r start end_ ≫= f) w =
  f (length (arrays w)) (with_arrays w (arrays w ++ [slice_list v start end_])).
Proof. intros H. unfold slice, mbind, M_bind, readArray. rewrite H. reflexivity. Qed.

Lemma bind_filterArray {B} p r v (f : ref -> M B) w :
  arrays w !! r = Some v ->
  (filterArray p r ≫= f) w =
  f (length (arrays w)) (with_arrays w (arrays w ++ [List.filter p v])).
Proof. intros H. unfold filterArray, mbind, M_bind, readArray. rewrite H. reflexivity. Qed.

Lemma bind_bind {A B C} (m : M A) (f : A -> M B) (g : B -> M C) w :
  ((m ≫= f) ≫= g) w = (m ≫= fun a => f a ≫= g) w.
Proof.
  unfold mbind, M_bind. destruct (m w) as [[a|e|] w']; reflexivity.
Qed.

Lemma arrays_with_arrays w h : arrays (with_arrays w h) = h.
Proof. reflexivity. Qed.

Lemma with_arrays_twice w h h' : with_arrays (with_arrays w h) h' = with_arrays w h'.
Proof. reflexivity. Qed.

Lemma lookup_past {A} (h more : list A) k : (h ++ more) !! (length h + k) = more !! k.
Proof. rewrite lookup_app_r by lia. f_equal. lia. Qed.

Lemma slice_list_from {A} (l : list A) k :
  k <= length l -> slice_list l (Z.of_nat k) None = drop k l.
Proof.
  intros H. unfold slice_list, relativeIndex.
  destruct (Z.ltb_spec (Z.of_nat k) 0); [lia|].
  rewrite Z.min_l by lia. rewrite Nat2Z.id.
  apply take_ge. rewrite length_drop. lia.
Qed.

Lemma slice_list_split {A} (l : list A) (k : Z) :
  slice_list l 0 (Some k) ++ slice_list l k None = l.
Proof.
  unfold slice_list. set (len := Z.of_nat (length l)).
  assert (0 <= len)%Z as Hlen by (unfold len; lia).
  assert (relativeIndex len 0 = 0%Z) as ->.
  { unfold relativeIndex. simpl. lia. }
  set (j := relativeIndex len k).
  assert (0 <= j <= len)%Z as Hj.
  { unfold j, relativeIndex. destruct (Z.ltb_spec k 0); lia. }
  simpl. rewrite drop_0, Z.sub_0_r.
  rewrite (take_ge (drop _ _)) by (rewrite length_drop; lia).
  apply take_drop.
Qed.

Section Running.

Variable stringify : list ContentItem -> string.
Variable invoke : string -> Try MessageContent.
Variable this : ContextCompactor.

Lemma separateSystem_run messages systemMessages nonSystemMessages :
  messages <> systemMessages ->
  forall rest before acc w fuel,
    arrays w !! messages = Some (before ++ rest) ->
    arrays w !! systemMessages = Some acc ->
    length rest < fuel ->
    run (separateSystem fuel messages systemMessages (length before) nonSystemMessages) w =
    if forallb isSystemMessage rest
    then (Return nonSystemMessages,
          with_arrays w (<[systemMessages := acc ++ rest]> (arrays w)))
    else (Return (length (arrays w)),
          with_arrays w (<[systemMessages := acc ++ leadingSystem rest]> (arrays w)
                         ++ [afterSystem rest])).
Proof.
  intros Hne rest. induction rest as [|m rest IH]; intros before acc w fuel Hm Hs Hf;
    (destruct fuel as [|fuel]; [lia|]); unfold run; simpl separateSystem.
  - rewrite (bind_readArray _ _ _ _ Hm).
    rewrite app_nil_r, Nat.ltb_irrefl, !app_nil_r.
    rewrite list_insert_id by exact Hs. rewrite with_arrays_id. reflexivity.
  - rewrite (bind_readArray _ _ _ _ Hm).
    assert ((length before <? length (before ++ m :: rest))%nat = true) as ->.
    { apply Nat.ltb_lt. rewrite length_app. simpl. lia. }
    rewrite list_lookup_middle by reflexivity.
    simpl forallb. simpl leadingSystem. simpl afterSystem.
    destruct (isSystemMessage m) eqn:Em; simpl andb.
    + rewrite (bind_push _ _ _ _ _ Hs).
      assert (systemMessages < length (arrays w)) as Hlt by (eapply lookup_lt_Some; eauto).
      specialize (IH (before ++ [m]) (acc ++ [m])
                    (with_arrays w (<[systemMessages := acc ++ [m]]> (arrays w))) fuel).
      rewrite length_app in IH. simpl in IH. rewrite Nat.add_1_r in IH.
      unfold run in IH. rewrite IH; clear IH.
      * rewrite !with_arrays_twice, !list_insert_insert_eq, length_insert, <- !app_assoc.
        reflexivity.
      * simpl. rewrite list_lookup_insert_ne by congruence.
        rewrite <- app_assoc. exact Hm.
      * simpl. apply list_lookup_insert_eq. exact Hlt.
      * simpl in Hf. lia.
    + unfold slice. rewrite (bind_readArray _ _ _ _ Hm).
      rewrite slice_list_from by (rewrite length_app; lia).
      rewrite drop_app_length, app_nil_r, list_insert_id by exact Hs. reflexivity.
Qed.

Lemma bind_run {A B} (m : M A) (f : A -> M B) w a w' :
  run m w = (Return a, w') -> (m ≫= f) w = f a w'.
Proof. unfold run, mbind, M_bind. intros ->. reflexivity. Qed.

Lemma insert_past {A} (h more : list A) k x :
  <[length h + k := x]> (h ++ more) = h ++ <[k := x]> more.
Proof. apply insert_app_r. Qed.

Lemma insert_length_app {A} (h more : list A) a x :
  <[length h := x]> (h ++ a :: more) = h ++ x :: more.
Proof. rewrite <- (Nat.add_0_r (length h)), insert_app_r. reflexivity. Qed.

Lemma lookup_length_app {A} (h more : list A) a :
  (h ++ a :: more) !! length h = Some a.
Proof. apply list_lookup_middle. reflexivity. Qed.

Lemma separateRecent_run nonSystemMessages middleMessages recentMessages non w :
  arrays w !! nonSystemMessages = Some non ->
  arrays w !! middleMessages = Some [] ->
  arrays w !! recentMessages = Some [] ->
  nonSystemMessages <> middleMessages ->
  nonSystemMessages <> recentMessages ->
  middleMessages <> recentMessages ->
  let count := preserveRecentCount (options this) in
  let splitIndex := (Z.of_nat (length non) - count)%Z in
  run (separateRecent this nonSystemMessages middleMessages recentMessages) w =
  (Return tt,
   with_arrays w
     (if (count <? Z.of_nat (length non))%Z
      then <[recentMessages := slice_list non splitIndex None]>
             (<[middleMessages := slice_list non 0 (Some splitIndex)]> (arrays w))
           ++ [slice_list non 0 (Some splitIndex); slice_list non splitIndex None]
      else <[recentMessages := non]> (arrays w))).
Proof.
  intros Hn Hmid Hrec Hnm Hnr Hmr count splitIndex.
  set (h := arrays w) in *.
  assert (nonSystemMessages < length h) by (eapply lookup_lt_Some; eauto).
  assert (middleMessages < length h) by (eapply lookup_lt_Some; eauto).
  assert (recentMessages < length h) by (eapply lookup_lt_Some; eauto).
  unfold run, separateRecent. rewrite (bind_readArray _ _ _ _ Hn).
  fold count. fold splitIndex.
  destruct (count <? Z.of_nat (length non))%Z.
  - rewrite (bind_slice _ _ _ _ _ _ Hn). fold h.
    rewrite (bind_readArray (length h) (slice_list non 0 (Some splitIndex)))
      by (simpl; apply lookup_length_app).
    rewrite (bind_push middleMessages [])
      by (simpl; rewrite lookup_app_l; assumption).
    simpl arrays. rewrite with_arrays_twice.
    rewrite (bind_slice nonSystemMessages non).
    2:{ simpl. rewrite list_lookup_insert_ne by congruence.
        rewrite lookup_app_l; assumption. }
    simpl arrays. rewrite with_arrays_twice.
    rewrite (bind_readArray _ (slice_list non splitIndex None))
      by (simpl; apply lookup_length_app).
    unfold push. simpl arrays.
    rewrite !insert_app_l by assumption.
    rewrite <- !app_assoc. simpl app.
    rewrite lookup_app_l by (rewrite length_insert; assumption).
    rewrite list_lookup_insert_ne by congruence.
    rewrite Hrec. unfold with_arrays, set_arrays. simpl.
    rewrite insert_app_l by (rewrite length_insert; assumption).
    reflexivity.
  - rewrite (bind_readArray _ _ _ _ Hn). unfold push. fold h. rewrite Hrec. reflexivity.
Qed.

Lemma leadingSystem_all ms :
  forallb isSystemMessage ms = true -> leadingSystem ms = ms.
Proof.
  induction ms as [|m ms IH]; simpl; [reflexivity|].
  destruct (isSystemMessage m); simpl; [|discriminate].
  intros H. rewrite IH by exact H. reflexivity.
Qed.

Lemma partitionMessages_run messages ms w :
  arrays w !! messages = Some ms ->
  run (partitionMessages this messages) w =
  (Return (length (arrays w), length (arrays w) + 1, length (arrays w) + 2),
   with_arrays w (arrays w ++ partitionArrays this ms)).
Proof.
  intros Hm. set (h := arrays w) in *. set (n := length h).
  assert (messages < n) as Hlt by (eapply lookup_lt_Some; eauto).
  unfold run, partitionMessages.
  rewrite !bind_newArray. simpl arrays. rewrite !length_app. simpl length.
  rewrite <- !app_assoc. simpl app. fold h. fold n.
  rewrite !with_arrays_twice.
  rewrite (bind_readArray messages ms) by (simpl; rewrite lookup_app_l; assumption).
  assert (n <> messages) as Hne by lia.
  assert ((h ++ [[]; []; []]) !! messages = Some ms) as Hm'
    by (rewrite lookup_app_l; assumption).
  assert ((h ++ [[]; []; []]) !! n = Some []) as Hs'
    by apply lookup_length_app.
  pose proof (separateSystem_run messages n messages (not_eq_sym Hne) ms [] []
       (with_arrays w (h ++ [[]; []; []])) (S (length ms)) Hm' Hs' ltac:(lia)) as Hloop.
  change (length (@nil BaseMessage)) with 0 in Hloop.
  simpl arrays in Hloop. rewrite !with_arrays_twice in Hloop. simpl app in Hloop.
  unfold n in Hloop at 2 3. rewrite !insert_length_app in Hloop. fold n in Hloop.
  destruct (forallb isSystemMessage ms) eqn:Eall;
    rewrite (bind_run _ _ _ _ _ Hloop); clear Hloop.
  all: replace (n + 1 + 1) with (n + 2) by lia.
  - pose proof (separateRecent_run messages (n + 1) (n + 2) ms
      (with_arrays w (h ++ [ms; []; []]))) as Hrun.
    simpl arrays in Hrun. unfold n in Hrun at 1 2. rewrite !lookup_past in Hrun.
    fold n in Hrun.
    rewrite (bind_run _ _ _ _ _
      (Hrun ltac:(rewrite lookup_app_l; assumption) eq_refl eq_refl
            ltac:(lia) ltac:(lia) ltac:(lia))); clear Hrun.
    unfold mret, M_ret. f_equal. rewrite with_arrays_twice. f_equal.
    unfold partitionArrays, middleOf, recentOf, nonSystemOf. rewrite Eall.
    rewrite leadingSystem_all by exact Eall.
    unfold n. rewrite !insert_past.
    destruct (preserveRecentCount (options this) <? Z.of_nat (length ms))%Z;
      simpl; rewrite <- ?app_assoc; reflexivity.
  - pose proof (separateRecent_run (n + 3) (n + 1) (n + 2) (afterSystem ms)
      (with_arrays w (h ++ [leadingSystem ms; []; []; afterSystem ms]))) as Hrun.
    simpl arrays in Hrun. unfold n in Hrun at 1 2 3. rewrite !lookup_past in Hrun.
    fold n in Hrun.
    replace (length (h ++ [[]; []; []])) with (n + 3)
      by (rewrite length_app; reflexivity).
    rewrite <- app_assoc. simpl app.
    rewrite (bind_run _ _ _ _ _
      (Hrun eq_refl eq_refl eq_refl ltac:(lia) ltac:(lia) ltac:(lia))); clear Hrun.
    unfold mret, M_ret. f_equal. rewrite with_arrays_twice. f_equal.
    unfold partitionArrays, middleOf, recentOf, nonSystemOf. rewrite Eall.
    unfold n. rewrite !insert_past.
    destruct (preserveRecentCount (options this) <? Z.of_nat (length (afterSystem ms)))%Z;
      simpl; rewrite <- ?app_assoc; reflexivity.
Qed.

(** *** compactMessages, as a function of the elements *)

Lemma compactMessages_run messages force ms w :
  arrays w !! messages = Some ms ->
  run (compactMessages stringify invoke this messages force) w =
  match estimateTokens this ms with
  | Thrown e => (Throw e, w)
  | Ok tokens =>
      let unchanged := unchangedResult messages (length ms) tokens in
      if negb force && negb (threshold (options this) <=? occupancy this tokens)%float
      then (Return unchanged, w)
      else
        let h := arrays w ++ partitionArrays this ms in
        if (length (middleOf this ms) =? 0)%nat then (Return unchanged, with_arrays w h)
        else
          match invoke (summaryPrompt (conversationOf stringify (middleOf this ms))) with
          | Thrown e => (Throw e, with_arrays w h)
          | Ok response =>
              let cm := leadingSystem ms
                        ++ [summaryMessage (contentText stringify response)]
                        ++ recentOf this ms in
              match estimateTokens this cm with
              | Thrown e => (Throw e, with_arrays w (h ++ [cm]))
              | Ok compactedTokens =>
                  (Return {| compacted := true;
                             originalCount := length ms;
                             compactedCount := length cm;
                             originalTokens := tokens;
                             compactedTokens := compactedTokens;
                             messages := length h |},
                   with_arrays w (h ++ [cm]))
              end
          end
  end.
Proof.
  intros Hm. cbv zeta.
  assert (messages < length (arrays w)) as Hlt by (eapply lookup_lt_Some; eauto).
  unfold run, compactMessages. rewrite (bind_readArray _ _ _ _ Hm).
  destruct (estimateTokens this ms) as [tokens|e] eqn:Etokens; [|reflexivity].
  rewrite bind_liftTry_Ok.
  rewrite (calculateUsageRatio_Ok this ms tokens Etokens), bind_liftTry_Ok.
  rewrite (shouldCompact_Ok this ms tokens Etokens).
  assert (forall (f : bool -> M CompactionResult) w0,
            ((if negb force
              then due ← liftTry (Ok (threshold (options this) <=? occupancy this tokens)%float);
                   mret (negb due)
              else mret false) ≫= f) w0
            = f (negb force && negb (threshold (options this) <=? occupancy this tokens)%float) w0)
    as Hdue by (intros f w0; destruct force; reflexivity).
  rewrite Hdue; clear Hdue.
  destruct (negb force && negb (threshold (options this) <=? occupancy this tokens)%float);
    [reflexivity|].
  rewrite (bind_run _ _ _ _ _ (partitionMessages_run messages ms w Hm)).
  set (h := arrays w) in *. set (n := length h).
  assert (forall k, (h ++ partitionArrays this ms) !! (n + k) = partitionArrays this ms !! k)
    as Hpast by (intros k; apply lookup_past).
  rewrite (bind_readArray (n + 1) (middleOf this ms)) by (simpl; rewrite Hpast; reflexivity).
  destruct (length (middleOf this ms) =? 0)%nat.
  - rewrite (bind_readArray messages ms) by (simpl; rewrite lookup_app_l; assumption).
    reflexivity.
  - unfold summarizeMessages. rewrite bind_bind.
    destruct (invoke (summaryPrompt (conversationOf stringify (middleOf this ms))))
      as [response|e]; [|reflexivity].
    simpl liftTry. rewrite !bind_ret.
    rewrite (bind_readArray n (leadingSystem ms)).
    2:{ simpl. rewrite <- (Nat.add_0_r n). rewrite Hpast. reflexivity. }
    rewrite (bind_readArray (n + 2) (recentOf this ms))
      by (simpl; rewrite Hpast; reflexivity).
    rewrite bind_newArray. simpl arrays. rewrite with_arrays_twice.
    match goal with
    | |- context [readArray (length ?l)] =>
        rewrite (bind_readArray (length l)
                   (leadingSystem ms
                    ++ [summaryMessage (contentText stringify response)]
                    ++ recentOf this ms))
          by (simpl; apply lookup_length_app)
    end.
    clear Etokens.
    destruct (estimateTokens this (leadingSystem ms ++ _)) as [compactedTokens|e];
      [|reflexivity].
    rewrite bind_liftTry_Ok.
    rewrite (bind_readArray messages ms).
    2:{ simpl. rewrite <- app_assoc, lookup_app_l; assumption. }
    reflexivity.
Qed.

(** On an array of the store [compactMessages] returns or throws: the loop
    has fuel enough and every reference it follows is allocated. *)
Lemma compactMessages_not_stuck messages force ms w :
  arrays w !! messages = Some ms ->
  fst (run (compactMessages stringify invoke this messages force) w) <> Stuck.
Proof.
  intros Hm. rewrite (compactMessages_run _ _ _ _ Hm). cbv zeta.
  destruct (estimateTokens this ms) as [tokens|e]; [|discriminate].
  destruct (negb force && negb _); [discriminate|].
  destruct (length (middleOf this ms) =? 0)%nat; [discriminate|].
  destruct (invoke _); [|discriminate].
  destruct (estimateTokens this _); discriminate.
Qed.

(** *** handlerCompact, as a function of the elements *)

Lemma orStringOpt_idem a b : orStringOpt (orStringOpt a b) b = orStringOpt a b.
Proof.
  destruct a as [s|]; simpl.
  - destruct (String.eqb s "") eqn:E; simpl; [|rewrite E; reflexivity].
    destruct b as [t|]; simpl; [|reflexivity]. destruct (String.eqb t ""); reflexivity.
  - destruct b as [t|]; simpl; [|reflexivity]. destruct (String.eqb t ""); reflexivity.
Qed.

Lemma getCurrentSessionId_run w :
  run getCurrentSessionId w = (Return (currentSessionId w), w).
Proof. reflexivity. Qed.

Lemma getMessages_run sessionId id s w :
  truthy (orStringOpt sessionId (currentSessionId w)) = Some id ->
  sessions w !! id = Some s ->
  run (getMessages sessionId) w = (Return (session.messages s), w).
Proof.
  intros Hid Hs. unfold run, getMessages, getSession, getWorld, mbind, M_bind.
  rewrite Hid. unfold mret, M_ret. rewrite Hs. reflexivity.
Qed.

Lemma getMessages_run_missing sessionId w :
  match truthy (orStringOpt sessionId (currentSessionId w)) with
  | Some id => sessions w !! id = None
  | None => True
  end ->
  run (getMessages sessionId) w =
  (Return (length (arrays w)), with_arrays w (arrays w ++ [[]])).
Proof.
  intros H. unfold run, getMessages, getSession, getWorld, mbind, M_bind.
  destruct (truthy (orStringOpt sessionId (currentSessionId w))) as [id|].
  - unfold mret, M_ret. rewrite H. reflexivity.
  - reflexivity.
Qed.

Lemma replaceMessages_run messages sessionId id s w :
  truthy (orStringOpt sessionId (currentSessionId w)) = Some id ->
  sessions w !! id = Some s ->
  run (replaceMessages messages sessionId) w =
  (Return tt,
   set_sessions (fun m => <[id := replacedSession s messages (now w)]> m) w).
Proof.
  intros Hid Hs. unfold run, replaceMessages, getWorld, mbind, M_bind.
  rewrite Hid, Hs. reflexivity.
Qed.

Lemma handlerCompact_run args context_sessionId id s ms w :
  truthy (orStringOpt context_sessionId (currentSessionId w)) = Some id ->
  sessions w !! id = Some s ->
  arrays w !! session.messages s = Some ms ->
  run (handlerCompact stringify invoke this args context_sessionId) w =
  match invoke (summaryPromptAll (conversationOfAll stringify ms)) with
  | Thrown e => (Throw e, w)
  | Ok response =>
      let sys := List.filter isSystemMessage ms in
      let ctx := List.filter isContextMessage ms in
      let new := sys ++ ctx ++ [summaryReply (contentText stringify response)] in
      (match estimateTokens this ms with
       | Thrown e => Throw e
       | Ok originalTokens =>
           match estimateTokens this new with
           | Thrown e => Throw e
           | Ok newTokens => Return executed
           end
       end,
       set_sessions (fun m => <[id := replacedSession s (length (arrays w) + 2) (now w)]> m)
         (with_arrays w (arrays w ++ [sys; ctx; new])))
  end.
Proof.
  intros Hid Hs Hm. cbv zeta.
  assert (session.messages s < length (arrays w)) as Hlt by (eapply lookup_lt_Some; eauto).
  unfold run, handlerCompact.
  rewrite (bind_run _ _ _ _ _ (getCurrentSessionId_run w)).
  set (sessionId := orStringOpt context_sessionId (currentSessionId w)) in *.
  assert (truthy (orStringOpt sessionId (currentSessionId w)) = Some id) as Hid'
    by (unfold sessionId; rewrite orStringOpt_idem; exact Hid).
  rewrite (bind_run _ _ _ _ _ (getMessages_run sessionId id s w Hid' Hs)).
  rewrite (bind_readArray _ _ _ _ Hm).
  unfold summarizeAllMessages. rewrite bind_bind.
  destruct (invoke (summaryPromptAll (conversationOfAll stringify ms)))
    as [response|e]; [|reflexivity].
  simpl liftTry. rewrite !bind_ret.
  set (h := arrays w) in *. set (n := length h).
  rewrite (bind_filterArray _ _ _ _ _ Hm). fold h. fold n.
  rewrite (bind_filterArray _ _ ms).
  2:{ simpl. rewrite lookup_app_l; assumption. }
  simpl arrays. rewrite with_arrays_twice, <- app_assoc. simpl app.
  replace (length (h ++ [List.filter isSystemMessage ms])) with (n + 1)
    by (rewrite length_app; reflexivity).
  rewrite (bind_readArray n (List.filter isSystemMessage ms))
    by (simpl; apply lookup_length_app).
  rewrite (bind_readArray (n + 1) (List.filter isContextMessage ms))
    by (simpl; unfold n; rewrite lookup_past; reflexivity).
  rewrite bind_newArray. simpl arrays. rewrite with_arrays_twice, <- app_assoc. simpl app.
  replace (length (h ++ [List.filter isSystemMessage ms; List.filter isContextMessage ms]))
    with (n + 2) by (rewrite length_app; reflexivity).
  match goal with
  | |- context [with_arrays w ?h'] =>
      rewrite (bind_run _ _ _ _ _
                 (replaceMessages_run (n + 2) sessionId id s (with_arrays w h') Hid' Hs))
  end.
  rewrite (bind_readArray (n + 2)
             (List.filter isSystemMessage ms ++ List.filter isContextMessage ms
              ++ [summaryReply (contentText stringify response)]))
    by (simpl; unfold n; rewrite lookup_past; reflexivity).
  rewrite (bind_readArray (session.messages s) ms)
    by (simpl; rewrite lookup_app_l; assumption).
  destruct (estimateTokens this ms) as [originalTokens|e]; [|reflexivity].
  rewrite bind_liftTry_Ok.
  destruct (estimateTokens this _) as [newTokens|e]; reflexivity.
Qed.


End Running.

(** ** The three regions step 1 computes *)

Lemma leading_after_system ms : leadingSystem ms ++ afterSystem ms = ms.
Proof.
  induction ms as [|m ms IH]; simpl; [reflexivity|].
  destruct (isSystemMessage m); simpl; [rewrite IH|]; reflexivity.
Qed.

Lemma forallb_system_false ms :
  forallb isSystemMessage ms = false <-> exists m, In m ms /\ _getType m <> system.
Proof.
  split.
  - intros H. assert (~ forallb isSystemMessage ms = true) as Hn by congruence.
    rewrite forallb_forall in Hn.
    induction ms as [|m ms IH]; simpl in *; [discriminate|].
    destruct (isSystemMessage m) eqn:Em.
    + destruct IH as [m' [Hin Hty]]; [exact H| |exists m'; auto].
      intros Hall. apply Hn. intros x [<-|Hx]; auto.
    + exists m. split; [auto|]. apply isSystemMessage_false. exact Em.
  - intros [m [Hin Hty]]. apply isSystemMessage_false in Hty.
    destruct (forallb isSystemMessage ms) eqn:E; [|reflexivity].
    rewrite forallb_forall in E. rewrite (E m Hin) in Hty. discriminate.
Qed.

Lemma middle_recent this ms : middleOf this ms ++ recentOf this ms = nonSystemOf ms.
Proof.
  unfold middleOf, recentOf.
  destruct (preserveRecentCount (options this) <? Z.of_nat (length (nonSystemOf ms)))%Z.
  - apply slice_list_split.
  - reflexivity.
Qed.


(** With system messages only, every message is in two regions. *)
Lemma partition_system_only this ms :
  forallb isSystemMessage ms = true ->
  leadingSystem ms ++ middleOf this ms ++ recentOf this ms = ms ++ ms.
Proof.
  intros H. rewrite middle_recent. unfold nonSystemOf. rewrite H.
  rewrite leadingSystem_all by exact H. reflexivity.
Qed.

(** ** The claims *)

(** C1 (the code departs from it).  Partition totality fails on a history of
    system messages only: the loop of step 1 never reaches the branch that
    assigns [nonSystemMessages], which keeps its initial value [messages].
    On five system messages with [preserveRecentCount = 2] the three arrays
    hold 5 + 3 + 2 messages: their concatenation is not the history, each
    message occurs twice. *)
Theorem partitionMessages_system_only_duplicates :
  let history := [SystemMessage "a"; SystemMessage "b"; SystemMessage "c";
                  SystemMessage "d"; SystemMessage "e"] in
  exists w' systemMessages middleMessages recentMessages,
    run (partitionMessages sampleCompactor 0) (sampleWorld history)
      = (Return (1, 2, 3), w') /\
    arrays w' !! 1 = Some systemMessages /\
    arrays w' !! 2 = Some middleMessages /\
    arrays w' !! 3 = Some recentMessages /\
    systemMessages ++ middleMessages ++ recentMessages = history ++ history /\
    systemMessages ++ middleMessages ++ recentMessages <> history.
Proof.
  cbv zeta. eexists _, _, _, _.
  split; [vm_compute; reflexivity|].
  repeat (split; [vm_compute; reflexivity|]).
  vm_compute. discriminate.
Qed.

(** The same history through [compactMessages], forced: the result has 8
    messages for 5. *)
Lemma compactMessages_system_only_grows :
  exists r w',
    run (compactMessages sampleStringify (answering "summary") sampleCompactor 0 true)
        (sampleWorld [SystemMessage "a"; SystemMessage "b"; SystemMessage "c";
                      SystemMessage "d"; SystemMessage "e"]) = (Return r, w') /\
    compacted r = true /\ originalCount r = 5 /\ compactedCount r = 8.
Proof. eexists _, _. split; [vm_compute; reflexivity|]. repeat split. Qed.

(** C2.  Below the threshold and not forced, [compactMessages] returns
    [compacted = false], the very array it was given (and the store is as it
    was, so the array holds the same messages), with [compactedCount =
    originalCount = messages.length] and [compactedTokens = originalTokens =
    estimateTokens(messages)].  The occupancy is [estimateTokens(messages) /
    contextWindowSize], which is what [calculateUsageRatio] returns. *)
Theorem compactMessages_below_threshold
    stringify invoke this (messages : ref) (ms : list BaseMessage) (tokens : nat)
    (w : World) :
  arrays w !! messages = Some ms ->
  estimateTokens this ms = Ok tokens ->
  (Z2number (Z.of_nat tokens) / Z2number (contextWindowSize (options this))
   <? threshold (options this))%float = true ->
  calculateUsageRatio this ms
    = Ok (Z2number (Z.of_nat tokens) / Z2number (contextWindowSize (options this)))%float /\
  run (compactMessages stringify invoke this messages false) w =
  (Return {| compacted := false;
             originalCount := length ms;
             compactedCount := length ms;
             originalTokens := tokens;
             compactedTokens := tokens;
             messages := messages |}, w).
Proof.
  intros Hm Htokens Hlow. split; [exact (calculateUsageRatio_Ok this ms tokens Htokens)|].
  rewrite (compactMessages_run stringify invoke this _ _ _ _ Hm), Htokens.
  cbv zeta. unfold occupancy. rewrite (number_ltb_not_geb _ _ Hlow). reflexivity.
Qed.

Lemma compactMessages_below_threshold_witness :
  let history := [SystemMessage "You are a coding agent."; HumanMessage "hello"] in
  arrays (sampleWorld history) !! 0 = Some history /\
  estimateTokens sampleCompactor history = Ok 39 /\
  calculateUsageRatio sampleCompactor history = Ok (39 / 1000)%float /\
  run (compactMessages sampleStringify (answering "summary") sampleCompactor 0 false)
      (sampleWorld history)
  = (Return {| compacted := false; originalCount := 2; compactedCount := 2;
               originalTokens := 39; compactedTokens := 39; messages := 0 |},
     sampleWorld history).
Proof.
  cbv zeta. split; [reflexivity|]. split; [vm_compute; reflexivity|].
  apply (compactMessages_below_threshold sampleStringify (answering "summary")
           sampleCompactor 0
           [SystemMessage "You are a coding agent."; HumanMessage "hello"] 39).
  - reflexivity.
  - vm_compute. reflexivity.
  - vm_compute. reflexivity.
Defined.

(** C6 (as the code has it).  On the empty sequence [estimateTokens] returns
    the per-call overhead, 3: a defined result, and not 0. *)
Theorem estimateTokens_empty this : estimateTokens this [] = Ok 3.
Proof. reflexivity. Qed.

Lemma estimateTokens_empty_not_zero : estimateTokens sampleCompactor [] <> Ok 0.
Proof. vm_compute. discriminate. Qed.

(** C7.  An image part adds exactly 85 to the estimate when its detail is
    "low" and exactly 400 when the detail is missing, "auto" or "high",
    wherever the part stands in its message and the message in the sequence
    (no text is encoded for it, so it throws nothing: with the part the
    estimate is that much more, or the same exception); every message adds 4
    on top of its payload and every call 3.  So a message of one low-detail
    image alone estimates to 85 + 4 + 3. *)
Theorem estimateTokens_image_and_overheads this :
  (forall total, itemTokens this total (image_url (Some "low")) = Ok (total + 85)) /\
  (forall total, itemTokens this total (image_url None) = Ok (total + 400)) /\
  (forall total, itemTokens this total (image_url (Some "auto")) = Ok (total + 400)) /\
  (forall total, itemTokens this total (image_url (Some "high")) = Ok (total + 400)) /\
  (forall earlier later type before after detail,
     estimateTokens this
       (earlier ++ mkMessage type (CArray (before ++ image_url detail :: after)) :: later)
     = (fun tokens =>
          tokens + (if String.eqb (orString detail "auto") "low" then 85 else 400))
       <$> estimateTokens this
             (earlier ++ mkMessage type (CArray (before ++ after)) :: later)) /\
  (forall ms,
     estimateTokens this ms
     = match encodeError this ms with
       | Some e => Thrown e
       | None => Ok (list_sum (map (fun m => contentCost this (content m) + 4) ms) + 3)
       end) /\
  (forall type,
     estimateTokens this [mkMessage type (CArray [image_url (Some "low")])]
     = Ok (85 + 4 + 3)) /\
  (forall type,
     estimateTokens this [mkMessage type (CArray [image_url None])] = Ok (400 + 4 + 3)).
Proof.
  repeat split; try reflexivity.
  - intros earlier later type before after detail.
    rewrite !estimateTokens_cost, !encodeError_app, !encodeError_cons. simpl content.
    unfold contentError. rewrite !firstError_app. cbn [firstError partError].
    rewrite !tokenCost_app, !tokenCost_cons. simpl content.
    unfold contentCost. rewrite !map_app, !list_sum_app. cbn [map list_sum].
    assert (partCost this (image_url detail)
            = if String.eqb (orString detail "auto") "low" then 85 else 400) as ->
      by reflexivity.
    unfold list_sum. cbn [fold_right].
    destruct (encodeError this earlier); [reflexivity|].
    destruct (firstError (partError this) before); [reflexivity|].
    destruct (firstError (partError this) after); [reflexivity|].
    destruct (encodeError this later); [reflexivity|].
    unfold fmap, Try_fmap. f_equal.
    destruct (String.eqb (orString detail "auto") "low"); lia.
  - intros ms. apply estimateTokens_cost.
Qed.

(** C8.  [shouldCompact] returns true exactly when [estimateTokens(history)
    / contextWindowSize >= threshold], a comparison of numbers: it holds
    when the occupancy equals the threshold or exceeds it, and fails when
    the occupancy is below.  The boundary is inclusive: 7 estimated tokens
    in a window of 10 with threshold 0.7 are due.  [shouldCompact] returns
    nothing only when the estimate itself throws. *)
Theorem shouldCompact_iff this (ms : list BaseMessage) :
  let ratio tokens :=
    (Z2number (Z.of_nat tokens) / Z2number (contextWindowSize (options this)))%float in
  let limit := threshold (options this) in
  (shouldCompact this ms = Ok true <->
     exists tokens,
       estimateTokens this ms = Ok tokens /\
       ((ratio tokens =? limit)%float = true \/ (limit <? ratio tokens)%float = true)) /\
  (forall tokens,
     estimateTokens this ms = Ok tokens ->
     (ratio tokens =? limit)%float = true -> shouldCompact this ms = Ok true) /\
  (forall tokens,
     estimateTokens this ms = Ok tokens ->
     (ratio tokens <? limit)%float = true -> shouldCompact this ms = Ok false) /\
  (forall tokens,
     estimateTokens this ms = Ok tokens ->
     calculateUsageRatio this ms = Ok (ratio tokens) /\
     shouldCompact this ms = Ok (limit <=? ratio tokens)%float) /\
  (forall e, estimateTokens this ms = Thrown e -> shouldCompact this ms = Thrown e) /\
  (let boundary := {| options := {| contextWindowSize := 10; threshold := 0.7;
                                    preserveRecentCount := 4 |};
                      encoding := encoding this |} in
   let history := [mkMessage human (CArray [])] in
   estimateTokens boundary history = Ok 7 /\
   (Z2number 7 / Z2number 10 =? 0.7)%float = true /\
   shouldCompact boundary history = Ok true).
Proof.
  cbv zeta.
  split; [|split; [|split; [|split; [|split]]]].
  - split.
    + intros Hdue. destruct (estimateTokens this ms) as [tokens|e] eqn:Etokens.
      * exists tokens. split; [reflexivity|].
        rewrite (shouldCompact_Ok this ms tokens Etokens) in Hdue. injection Hdue as Hdue.
        unfold occupancy in Hdue. apply number_leb_iff in Hdue.
        rewrite (number_eqb_sym _ (threshold (options this))). tauto.
      * rewrite (shouldCompact_Thrown this ms e Etokens) in Hdue. discriminate.
    + intros [tokens [Etokens Hdue]]. rewrite (shouldCompact_Ok this ms tokens Etokens).
      f_equal. unfold occupancy. apply number_leb_iff.
      rewrite (number_eqb_sym _ (threshold (options this))) in Hdue. tauto.
  - intros tokens Etokens H. rewrite (shouldCompact_Ok this ms tokens Etokens). f_equal.
    unfold occupancy. apply number_leb_iff. right. rewrite number_eqb_sym. exact H.
  - intros tokens Etokens H. rewrite (shouldCompact_Ok this ms tokens Etokens). f_equal.
    unfold occupancy. apply number_ltb_not_geb. exact H.
  - intros tokens Etokens.
    split; [exact (calculateUsageRatio_Ok this ms tokens Etokens)|].
    exact (shouldCompact_Ok this ms tokens Etokens).
  - intros e. apply shouldCompact_Thrown.
  - repeat split; vm_compute; reflexivity.
Qed.




(** ** Stores that only grow *)

Lemma extends_refl w : extends w w.
Proof. exists []. destruct w. unfold set_arrays. simpl. rewrite app_nil_r. reflexivity. Qed.

Lemma extends_with_arrays w more : extends w (with_arrays w (arrays w ++ more)).
Proof. exists more. reflexivity. Qed.

Lemma extends_lookup w w' r v :
  extends w w' -> arrays w !! r = Some v -> arrays w' !! r = Some v.
Proof.
  intros [more ->] H. simpl. rewrite lookup_app_l; [exact H|].
  eapply lookup_lt_Some; eauto.
Qed.

Lemma extends_sessionMessages w w' sessionId :
  sessionsValid w -> extends w w' ->
  sessionMessages w' sessionId = sessionMessages w sessionId.
Proof.
  intros Hv [more ->]. unfold sessionMessages. simpl.
  destruct (truthy (orStringOpt sessionId (currentSessionId w))) as [id|]; [|reflexivity].
  destruct (sessions w !! id) as [s|] eqn:Es; [|reflexivity].
  rewrite lookup_app_l by (eapply Hv; eauto). reflexivity.
Qed.

Lemma compactMessages_extends stringify invoke this messages force ms w :
  arrays w !! messages = Some ms ->
  extends w (snd (run (compactMessages stringify invoke this messages force) w)).
Proof.
  intros Hm. rewrite (compactMessages_run stringify invoke this _ _ _ _ Hm). cbv zeta.
  destruct (estimateTokens this ms) as [tokens|e]; [|apply extends_refl].
  destruct (negb force && negb _); [apply extends_refl|].
  destruct (length (middleOf this ms) =? 0)%nat; [apply extends_with_arrays|].
  destruct (invoke _) as [response|e]; [|apply extends_with_arrays].
  destruct (estimateTokens this _); simpl snd; rewrite <- app_assoc;
    apply extends_with_arrays.
Qed.

(** ** The claims, continued *)

(** What the session holds after the /compact handler has replaced its
    messages, and how the handler ends. *)
Lemma handlerCompact_session_after
    stringify invoke this args context_sessionId id s (ms : list BaseMessage) response w :
  truthy (orStringOpt context_sessionId (currentSessionId w)) = Some id ->
  sessions w !! id = Some s ->
  arrays w !! session.messages s = Some ms ->
  invoke (summaryPromptAll (conversationOfAll stringify ms)) = Ok response ->
  let new := List.filter isSystemMessage ms ++ List.filter isContextMessage ms
             ++ [summaryReply (contentText stringify response)] in
  exists w',
    run (handlerCompact stringify invoke this args context_sessionId) w
      = (match estimateTokens this ms with
         | Thrown e => Throw e
         | Ok originalTokens =>
             match estimateTokens this new with
             | Thrown e => Throw e
             | Ok newTokens => Return executed
             end
         end, w') /\
    sessionMessages w' context_sessionId = new /\
    (forall other : ContextCompactor,
       snd (run (handlerCompact stringify invoke other args context_sessionId) w) = w').
Proof.
  intros Hid Hs Hm Hok. cbv zeta.
  rewrite (handlerCompact_run stringify invoke this args _ _ _ _ _ Hid Hs Hm), Hok.
  cbv zeta. eexists. split; [reflexivity|]. split.
  - unfold sessionMessages.
    cbn [currentSessionId sessions arrays set_sessions with_arrays set_arrays].
    rewrite Hid, lookup_insert_eq. cbn [session.messages replacedSession].
    rewrite lookup_past. reflexivity.
  - intros other.
    rewrite (handlerCompact_run stringify invoke other args _ _ _ _ _ Hid Hs Hm), Hok.
    reflexivity.
Qed.

(** C3 (as the code has it).  The /compact handler has no threshold check:
    for a session holding [ms], once the model has answered, the session
    holds the system messages of [ms], then its context-injection messages,
    then one assistant message wrapping the summary, whatever the
    compactor's options and the occupancy are.  With 2 system messages and 1
    context-injection message in the history, that is 4 messages.  The
    handler then estimates the old and the new history for its log: it
    answers "executed" exactly when both estimates return, and throws the
    tokenizer's exception otherwise, the session being replaced already. *)
Theorem handlerCompact_replaces_history
    stringify invoke this args context_sessionId id s (ms : list BaseMessage) response w :
  truthy (orStringOpt context_sessionId (currentSessionId w)) = Some id ->
  sessions w !! id = Some s ->
  arrays w !! session.messages s = Some ms ->
  invoke (summaryPromptAll (conversationOfAll stringify ms)) = Ok response ->
  let new := List.filter isSystemMessage ms ++ List.filter isContextMessage ms
             ++ [AIMessage ("[이전 대화 요약]" +:+ nl +:+ contentText stringify response)] in
  exists outcome w',
    run (handlerCompact stringify invoke this args context_sessionId) w = (outcome, w') /\
    sessionMessages w' context_sessionId = new /\
    (length (List.filter isSystemMessage ms) = 2 ->
     length (List.filter isContextMessage ms) = 1 ->
     length (sessionMessages w' context_sessionId) = 4) /\
    outcome = match estimateTokens this ms with
              | Thrown e => Throw e
              | Ok originalTokens =>
                  match estimateTokens this new with
                  | Thrown e => Throw e
                  | Ok newTokens => Return executed
                  end
              end /\
    (outcome = Return executed <->
       exists originalTokens newTokens,
         estimateTokens this ms = Ok originalTokens /\
         estimateTokens this new = Ok newTokens).
Proof.
  intros Hid Hs Hm Hok. cbv zeta.
  destruct (handlerCompact_session_after stringify invoke this args context_sessionId
              id s ms response w Hid Hs Hm Hok) as [w' [Hrun [Hmessages _]]].
  unfold summaryReply in *.
  eexists _, w'. split; [exact Hrun|]. split; [exact Hmessages|]. split; [|split].
  - intros H2 H1. rewrite Hmessages, !length_app, H2, H1. reflexivity.
  - reflexivity.
  - destruct (estimateTokens this ms) as [originalTokens|e].
    + destruct (estimateTokens this _) as [newTokens|e].
      * split; [eauto|reflexivity].
      * split; [discriminate|]. intros [x [y [_ H]]]. discriminate.
    + split; [discriminate|]. intros [x [y [H _]]]. discriminate.
Qed.

Lemma handlerCompact_replaces_history_witness :
  sessions (sampleWorld scenarioC) !! "s1"
    = Some (session.mkSession "s1" 0 (session.mkMetadata 0 0)) /\
  arrays (sampleWorld scenarioC) !! 0 = Some scenarioC /\
  length scenarioC = 23 /\
  shouldCompact sampleCompactor scenarioC = Ok false /\
  exists w',
    run (handlerCompact sampleStringify (answering "done") sampleCompactor "" None)
        (sampleWorld scenarioC) = (Return executed, w') /\
    sessionMessages w' None
      = [SystemMessage "You are a coding agent."; SystemMessage "Answer briefly.";
         HumanMessage "Project context from cocoagent.md: a TypeScript tutorial.";
         AIMessage ("[이전 대화 요약]" +:+ nl +:+ "done")] /\
    length (sessionMessages w' None) = 4.
Proof.
  split; [reflexivity|]. split; [reflexivity|]. split; [reflexivity|].
  split; [vm_compute; reflexivity|].
  destruct (handlerCompact_replaces_history sampleStringify (answering "done")
              sampleCompactor "" None "s1"
              (session.mkSession "s1" 0 (session.mkMetadata 0 0))
              scenarioC (CString "done") (sampleWorld scenarioC)
              eq_refl eq_refl eq_refl eq_refl)
    as [outcome [w' [Hrun [Hmessages [Hlength [Houtcome _]]]]]].
  exists w'. split; [rewrite Hrun, Houtcome; vm_compute; reflexivity|].
  split; [exact Hmessages|].
  apply Hlength; reflexivity.
Defined.

(** C3, the claim refuted: the handler does not answer "executed" for every
    history.  With a tokenizer that rejects a text containing a special
    token and such a text in the history, the handler throws, after it has
    replaced the session's messages. *)
Lemma handlerCompact_throws_after_replacing :
  let history := [SystemMessage "You are a coding agent.";
                  HumanMessage "what does <|endoftext|> stand for?";
                  AIMessage "it marks the end of a document"] in
  estimateTokens strictCompactor history = Thrown disallowedSpecialToken /\
  exists w',
    run (handlerCompact sampleStringify (answering "done") strictCompactor "" None)
        (sampleWorld history) = (Throw disallowedSpecialToken, w') /\
    sessionMessages w' None
      = [SystemMessage "You are a coding agent.";
         AIMessage ("[이전 대화 요약]" +:+ nl +:+ "done")] /\
    sessionMessages (sampleWorld history) None = history.
Proof.
  cbv zeta. split; [vm_compute; reflexivity|].
  eexists. split; [vm_compute; reflexivity|]. split; vm_compute; reflexivity.
Qed.

(** C10.  On the forced path a message counts as context injection exactly
    when it is a human message whose payload is a string containing
    "cocoagent.md".  What the session holds after the run, before the
    summary, are the system and the context-injection messages of the
    history and nothing else: no other message survives, however recent.
    The compactor's options ([preserveRecentCount] among them) do not
    enter: the store after the run is the same for every compactor, and the
    whole run is the same for every compactor with the same tokenizer. *)
Theorem handlerCompact_drops_recent_messages
    stringify invoke this args context_sessionId id s (ms : list BaseMessage) response w :
  truthy (orStringOpt context_sessionId (currentSessionId w)) = Some id ->
  sessions w !! id = Some s ->
  arrays w !! session.messages s = Some ms ->
  invoke (summaryPromptAll (conversationOfAll stringify ms)) = Ok response ->
  (forall m, isContextMessage m = true <->
     _getType m = human /\
     exists s before after,
       content m = CString s /\ s = before +:+ "cocoagent.md" +:+ after) /\
  exists w' preserved,
    snd (run (handlerCompact stringify invoke this args context_sessionId) w) = w' /\
    sessionMessages w' context_sessionId
      = preserved
        ++ [AIMessage ("[이전 대화 요약]" +:+ nl +:+ contentText stringify response)] /\
    (forall m, In m preserved <->
       In m ms /\ (_getType m = system \/ isContextMessage m = true)) /\
    (forall count m, In m (slice_list ms (- count) None) ->
       _getType m <> system -> isContextMessage m = false -> ~ In m preserved) /\
    (forall other : ContextCompactor,
       snd (run (handlerCompact stringify invoke other args context_sessionId) w) = w') /\
    (forall otherOptions : CompactionOptions,
       run (handlerCompact stringify invoke
              {| options := otherOptions; encoding := encoding this |}
              args context_sessionId) w
       = run (handlerCompact stringify invoke this args context_sessionId) w).
Proof.
  intros Hid Hs Hm Hok. split.
  - intros m. unfold isContextMessage. rewrite andb_true_iff, MessageType_eqb_eq.
    destruct (content m) as [text|items].
    + rewrite includes_true. split.
      * intros [Hty [before [after H]]]. split; [exact Hty|]. exists text, before, after. auto.
      * intros [Hty [text' [before [after [Heq H]]]]]. split; [exact Hty|].
        injection Heq as <-. eauto.
    + split; [intros [_ H]; discriminate|].
      intros [_ [text [before [after [H _]]]]]. discriminate.
  - destruct (handlerCompact_session_after stringify invoke this args context_sessionId
                id s ms response w Hid Hs Hm Hok) as [w' [Hrun [Hmessages Hothers]]].
    exists w', (List.filter isSystemMessage ms ++ List.filter isContextMessage ms).
    split; [rewrite Hrun; reflexivity|].
    split; [rewrite Hmessages, <- app_assoc; reflexivity|].
    assert (forall m, In m (List.filter isSystemMessage ms ++ List.filter isContextMessage ms)
                      <-> In m ms /\ (_getType m = system \/ isContextMessage m = true)) as Hin.
    { intros m. rewrite in_app_iff, !filter_In, isSystemMessage_true. tauto. }
    split; [exact Hin|]. split; [|split].
    + intros count m _ Hsys Hctx H. apply Hin in H. destruct H as [_ [H|H]]; congruence.
    + exact Hothers.
    + intros otherOptions.
      rewrite !(handlerCompact_run stringify invoke _ args _ _ _ _ _ Hid Hs Hm).
      destruct (invoke _); [|reflexivity]. cbv zeta.
      rewrite !estimateTokens_cost. reflexivity.
Qed.

Lemma handlerCompact_drops_recent_messages_witness :
  sessions (sampleWorld scenarioC) !! "s1"
    = Some (session.mkSession "s1" 0 (session.mkMetadata 0 0)) /\
  arrays (sampleWorld scenarioC) !! 0 = Some scenarioC /\
  In (AIMessage "a10") (slice_list scenarioC (-2) None) /\
  exists w',
    snd (run (handlerCompact sampleStringify (answering "done") sampleCompactor "" None)
           (sampleWorld scenarioC)) = w' /\
    ~ In (AIMessage "a10") (sessionMessages w' None).
Proof.
  assert (In (AIMessage "a10") (slice_list scenarioC (-2) None)) as Hlast
    by (vm_compute; auto).
  split; [reflexivity|]. split; [reflexivity|]. split; [exact Hlast|].
  destruct (handlerCompact_drops_recent_messages sampleStringify (answering "done")
              sampleCompactor "" None "s1"
              (session.mkSession "s1" 0 (session.mkMetadata 0 0))
              scenarioC (CString "done") (sampleWorld scenarioC)
              eq_refl eq_refl eq_refl eq_refl)
    as [_ [w' [preserved [Hrun [Hmessages [_ [Hrecent _]]]]]]].
  exists w'. split; [exact Hrun|].
  rewrite Hmessages, in_app_iff. intros [H|[H|[]]].
  - exact (Hrecent 2%Z _ Hlast ltac:(discriminate) eq_refl H).
  - vm_compute in H. discriminate H.
Defined.


Lemma sampleWorld_valid ms : sessionsValid (sampleWorld ms).
Proof.
  intros id s H. unfold sampleWorld in H. simpl in H.
  apply lookup_insert_Some in H. destruct H as [[_ <-]|[_ H]]; [simpl; lia|].
  rewrite lookup_empty in H. discriminate.
Qed.





(** * Further properties *)

(** ** compactMessages keeps both ends of the history *)

Lemma afterSystem_length ms : length (afterSystem ms) <= length ms.
Proof.
  induction ms as [|m ms IH]; simpl; [lia|].
  destruct (isSystemMessage m); simpl; lia.
Qed.

Lemma nonSystemOf_suffix ms : exists before, ms = before ++ nonSystemOf ms.
Proof.
  unfold nonSystemOf. destruct (forallb isSystemMessage ms).
  - exists []. reflexivity.
  - exists (leadingSystem ms). symmetry. apply leading_after_system.
Qed.

(** When something is summarized, the recent messages are the last
    [preserveRecentCount] messages of the history. *)
Lemma recentOf_last this ms :
  (0 <= preserveRecentCount (options this))%Z ->
  middleOf this ms <> [] ->
  recentOf this ms
  = drop (length ms - Z.to_nat (preserveRecentCount (options this))) ms.
Proof.
  intros Hk Hmid. unfold middleOf, recentOf in *.
  set (k := preserveRecentCount (options this)) in *.
  destruct (Z.ltb_spec k (Z.of_nat (length (nonSystemOf ms)))) as [Hlt|Hge];
    [|contradiction].
  destruct (nonSystemOf_suffix ms) as [before Hms].
  set (non := nonSystemOf ms) in *. clearbody non k.
  replace (Z.of_nat (length non) - k)%Z with (Z.of_nat (length non - Z.to_nat k)) by lia.
  rewrite slice_list_from by lia.
  rewrite Hms at 1 2. rewrite length_app, drop_app.
  replace (length before + length non - Z.to_nat k - length before)
    with (length non - Z.to_nat k) by lia.
  rewrite (drop_ge before) by lia. reflexivity.
Qed.

(** The array a compaction returns. *)
Lemma compactMessages_compacted_array
    stringify invoke this (input : ref) force (ms : list BaseMessage) w r w' :
  arrays w !! input = Some ms ->
  run (compactMessages stringify invoke this input force) w = (Return r, w') ->
  compacted r = true ->
  middleOf this ms <> [] /\
  arrays w' !! input = Some ms /\
  exists summary,
    arrays w' !! messages r
      = Some (leadingSystem ms ++ [summaryMessage summary] ++ recentOf this ms) /\
    estimateTokens this (leadingSystem ms ++ [summaryMessage summary] ++ recentOf this ms)
      = Ok (compactedTokens r).
Proof.
  intros Hm Hrun Hcompacted.
  pose proof (compactMessages_extends stringify invoke this input force ms w Hm) as Hext.
  rewrite Hrun in Hext. simpl in Hext.
  rewrite (compactMessages_run stringify invoke this _ _ _ _ Hm) in Hrun. cbv zeta in Hrun.
  destruct (estimateTokens this ms) as [tokens|e]; [|discriminate Hrun].
  destruct (negb force && negb _).
  { injection Hrun as <- _. discriminate Hcompacted. }
  destruct (length (middleOf this ms) =? 0)%nat eqn:Elen.
  { injection Hrun as <- _. discriminate Hcompacted. }
  destruct (invoke _) as [response|e]; [|discriminate Hrun].
  destruct (estimateTokens this (leadingSystem ms ++ _)) as [newTokens|e] eqn:Enew;
    [|discriminate Hrun].
  injection Hrun as <- <-.
  apply Nat.eqb_neq in Elen.
  split; [intros H; rewrite H in Elen; apply Elen; reflexivity|].
  split; [eapply extends_lookup; eauto|].
  exists (contentText stringify response).
  split; [|exact Enew].
  cbn [messages arrays with_arrays set_arrays]. apply lookup_length_app.
Qed.

(** X1.  Whenever [compactMessages] compacts (with a [preserveRecentCount]
    that is not negative), the array it returns is: the leading system
    messages of the history, one system message wrapping the summary, and
    the last [preserveRecentCount] messages of the history, unchanged and in
    order. *)
Theorem compactMessages_keeps_both_ends
    stringify invoke this (input : ref) force (ms : list BaseMessage) w r w' :
  arrays w !! input = Some ms ->
  (0 <= preserveRecentCount (options this))%Z ->
  run (compactMessages stringify invoke this input force) w = (Return r, w') ->
  compacted r = true ->
  exists summary,
    arrays w' !! messages r
      = Some (leadingSystem ms
              ++ [SystemMessage ("[이전 대화 요약]" +:+ nl +:+ summary)]
              ++ drop (length ms - Z.to_nat (preserveRecentCount (options this))) ms) /\
    length (drop (length ms - Z.to_nat (preserveRecentCount (options this))) ms)
      = Z.to_nat (preserveRecentCount (options this)) /\
    arrays w' !! input = Some ms.
Proof.
  intros Hm Hk Hrun Hcompacted.
  destruct (compactMessages_compacted_array stringify invoke this input force ms w r w'
              Hm Hrun Hcompacted) as [Hmid [Hinput [summary [Harray _]]]].
  exists summary. split; [|split; [|exact Hinput]].
  - rewrite <- (recentOf_last this ms Hk Hmid). exact Harray.
  - rewrite length_drop.
    unfold middleOf in Hmid.
    destruct (Z.ltb_spec (preserveRecentCount (options this))
                (Z.of_nat (length (nonSystemOf ms)))) as [Hlt|Hge]; [|contradiction].
    destruct (nonSystemOf_suffix ms) as [before Hms].
    assert (length (nonSystemOf ms) <= length ms)
      by (rewrite Hms at 2; rewrite length_app; lia).
    lia.
Qed.

Lemma compactMessages_keeps_both_ends_witness :
  let history := [SystemMessage "You are a coding agent."; HumanMessage "list the files";
                  AIMessage "src and docs"; HumanMessage "thanks"; AIMessage "ok"] in
  exists r w' summary,
    run (compactMessages sampleStringify (answering "files") sampleCompactor 0 true)
        (sampleWorld history) = (Return r, w') /\
    compacted r = true /\
    arrays w' !! messages r
      = Some [SystemMessage "You are a coding agent.";
              SystemMessage ("[이전 대화 요약]" +:+ nl +:+ summary);
              HumanMessage "thanks"; AIMessage "ok"].
Proof.
  cbv zeta.
  assert (exists r w',
            run (compactMessages sampleStringify (answering "files") sampleCompactor 0 true)
                (sampleWorld
                   [SystemMessage "You are a coding agent."; HumanMessage "list the files";
                    AIMessage "src and docs"; HumanMessage "thanks"; AIMessage "ok"])
            = (Return r, w') /\ compacted r = true) as [r [w' [Hrun Hcompacted]]].
  { eexists _, _. split; [vm_compute; reflexivity|reflexivity]. }
  destruct (compactMessages_keeps_both_ends sampleStringify (answering "files")
              sampleCompactor 0 true
              [SystemMessage "You are a coding agent."; HumanMessage "list the files";
               AIMessage "src and docs"; HumanMessage "thanks"; AIMessage "ok"]
              (sampleWorld
                 [SystemMessage "You are a coding agent."; HumanMessage "list the files";
                  AIMessage "src and docs"; HumanMessage "thanks"; AIMessage "ok"])
              r w' eq_refl ltac:(simpl; lia) Hrun Hcompacted)
    as [summary [Harray _]].
  exists r, w', summary. split; [exact Hrun|]. split; [exact Hcompacted|exact Harray].
Defined.

Lemma afterSystem_length_eq ms :
  length (afterSystem ms) = length ms - length (leadingSystem ms).
Proof.
  rewrite <- (leading_after_system ms) at 2. rewrite length_app. lia.
Qed.

(** X2.  A history with no more than [preserveRecentCount] messages after
    its leading system messages is not compacted, forced or not, whatever
    the occupancy: when its estimate exists, [compacted] is false, the
    array returned is the one given, and the model is not called (an
    unreachable model makes no difference); when the estimate throws,
    [compactMessages] throws the same exception. *)
Theorem compactMessages_short_history_unchanged
    stringify invoke this (input : ref) force (ms : list BaseMessage) w :
  arrays w !! input = Some ms ->
  (exists m, In m ms /\ _getType m <> system) ->
  (Z.of_nat (length ms - length (leadingSystem ms))
   <= preserveRecentCount (options this))%Z ->
  exists w',
    run (compactMessages stringify invoke this input force) w
      = (match estimateTokens this ms with
         | Ok tokens =>
             Return {| compacted := false;
                       originalCount := length ms;
                       compactedCount := length ms;
                       originalTokens := tokens;
                       compactedTokens := tokens;
                       messages := input |}
         | Thrown e => Throw e
         end, w') /\
    extends w w' /\
    arrays w' !! input = Some ms.
Proof.
  intros Hm Hnon Hshort.
  pose proof (compactMessages_extends stringify invoke this input force ms w Hm) as Hext.
  rewrite (compactMessages_run stringify invoke this _ _ _ _ Hm) in *. cbv zeta in *.
  assert (middleOf this ms = []) as Hmid.
  { unfold middleOf, nonSystemOf. rewrite (proj2 (forallb_system_false ms) Hnon).
    rewrite afterSystem_length_eq.
    destruct (Z.ltb_spec (preserveRecentCount (options this))
                (Z.of_nat (length ms - length (leadingSystem ms)))); [lia|reflexivity]. }
  rewrite Hmid in *. simpl length in *. simpl Nat.eqb in *.
  destruct (estimateTokens this ms) as [tokens|e].
  - destruct (negb force && negb _).
    + exists w. split; [reflexivity|]. split; [apply extends_refl|exact Hm].
    + eexists. split; [reflexivity|]. split; [exact Hext|].
      eapply extends_lookup; eauto.
  - exists w. split; [reflexivity|]. split; [apply extends_refl|exact Hm].
Qed.

Lemma compactMessages_short_history_unchanged_witness :
  let history := [SystemMessage "You are a coding agent."; HumanMessage "hello";
                  AIMessage "hi"] in
  exists w',
    run (compactMessages sampleStringify unreachable sampleCompactor 0 true)
        (sampleWorld history)
      = (Return {| compacted := false; originalCount := 3; compactedCount := 3;
                   originalTokens := 45; compactedTokens := 45; messages := 0 |}, w') /\
    arrays w' !! 0 = Some history.
Proof.
  cbv zeta.
  assert (exists m,
            In m [SystemMessage "You are a coding agent."; HumanMessage "hello";
                  AIMessage "hi"] /\ _getType m <> system) as Hnon.
  { exists (HumanMessage "hello"). split; [simpl; auto|discriminate]. }
  destruct (compactMessages_short_history_unchanged sampleStringify unreachable
              sampleCompactor 0 true
              [SystemMessage "You are a coding agent."; HumanMessage "hello"; AIMessage "hi"]
              (sampleWorld
                 [SystemMessage "You are a coding agent."; HumanMessage "hello";
                  AIMessage "hi"])
              eq_refl Hnon ltac:(simpl; lia)) as [w' [Hrun [_ Harray]]].
  exists w'. split; [exact Hrun|exact Harray].
Defined.

(** ** estimateTokens *)

Lemma tokenCost_reorder this (ms ms' : list BaseMessage) :
  Permutation ms ms' -> tokenCost this ms = tokenCost this ms'.
Proof.
  intros H. induction H as [|m l l' _ IH|a b l|l l' l'' _ IH1 _ IH2].
  - reflexivity.
  - rewrite !tokenCost_cons, IH. reflexivity.
  - rewrite !tokenCost_cons. lia.
  - congruence.
Qed.

Lemma encodeError_reorder this (ms ms' : list BaseMessage) :
  Permutation ms ms' -> encodeError this ms = None <-> encodeError this ms' = None.
Proof.
  intros H. induction H as [|m l l' _ IH|a b l|l l' l'' _ IH1 _ IH2].
  - reflexivity.
  - rewrite !encodeError_cons. destruct (contentError this (content m)); [reflexivity|exact IH].
  - rewrite !encodeError_cons.
    destruct (contentError this (content a)), (contentError this (content b));
      split; congruence.
  - rewrite IH1. exact IH2.
Qed.

(** X3.  The estimate does not depend on the order of the messages: a
    history has the estimate [tokens] exactly when each of its reorderings
    has. *)
Theorem estimateTokens_reorder this (ms ms' : list BaseMessage) :
  Permutation ms ms' ->
  forall tokens, estimateTokens this ms = Ok tokens <-> estimateTokens this ms' = Ok tokens.
Proof.
  intros H tokens.
  rewrite !estimateTokens_Ok, (encodeError_reorder this ms ms' H),
    (tokenCost_reorder this ms ms' H).
  reflexivity.
Qed.

Lemma estimateTokens_reorder_witness :
  Permutation [HumanMessage "one"; AIMessage "three"] [AIMessage "three"; HumanMessage "one"] /\
  estimateTokens sampleCompactor [HumanMessage "one"; AIMessage "three"] = Ok 19 /\
  estimateTokens sampleCompactor [AIMessage "three"; HumanMessage "one"] = Ok 19.
Proof.
  assert (Permutation [HumanMessage "one"; AIMessage "three"]
                      [AIMessage "three"; HumanMessage "one"]) as H by apply perm_swap.
  assert (estimateTokens sampleCompactor [HumanMessage "one"; AIMessage "three"] = Ok 19)
    as Hone by (vm_compute; reflexivity).
  split; [exact H|]. split; [exact Hone|].
  exact (proj1 (estimateTokens_reorder sampleCompactor _ _ H 19) Hone).
Defined.

(** X4.  The estimate of two histories put together exists exactly when
    both have one, and is then the sum of their estimates less one per-call
    overhead; an estimate is at least 4 per message plus 3; and the
    estimate ignores the role of a message. *)
Theorem estimateTokens_append this :
  (forall (a b : list BaseMessage) tokens,
     estimateTokens this (a ++ b) = Ok tokens <->
     exists tokensA tokensB,
       estimateTokens this a = Ok tokensA /\ estimateTokens this b = Ok tokensB /\
       tokens + 3 = tokensA + tokensB) /\
  (forall (ms : list BaseMessage) tokens,
     estimateTokens this ms = Ok tokens -> 4 * length ms + 3 <= tokens) /\
  (forall (ms : list BaseMessage) (role : MessageType),
     estimateTokens this (map (fun m => mkMessage role (content m)) ms)
     = estimateTokens this ms).
Proof.
  split; [|split].
  - intros a b tokens. apply estimateTokens_app_Ok.
  - intros ms tokens H. apply estimateTokens_Ok in H. destruct H as [_ ->].
    induction ms as [|m ms IH]; [simpl; lia|].
    rewrite tokenCost_cons. simpl length. lia.
  - intros ms role. rewrite !estimateTokens_cost.
    assert (encodeError this (map (fun m => mkMessage role (content m)) ms)
            = encodeError this ms) as ->.
    { induction ms as [|m ms IH]; [reflexivity|].
      simpl map. rewrite !encodeError_cons, IH. reflexivity. }
    assert (tokenCost this (map (fun m => mkMessage role (content m)) ms)
            = tokenCost this ms) as ->.
    { induction ms as [|m ms IH]; [reflexivity|].
      simpl map. rewrite !tokenCost_cons, IH. reflexivity. }
    reflexivity.
Qed.

(** ** The transcripts sent to the model *)

Lemma string_app_assoc (a b c : string) : (a +:+ b) +:+ c = a +:+ (b +:+ c).
Proof.
  induction a as [|x a IH]; [reflexivity|].
  rewrite !append_cons, IH. reflexivity.
Qed.

Lemma string_app_nil_r (a : string) : a +:+ "" = a.
Proof. induction a as [|x a IH]; [reflexivity|]. rewrite append_cons, IH. reflexivity. Qed.

Lemma conversationOf_acc stringify ms acc :
  fold_left (fun conversation msg =>
    conversation +:+ roleLabel (_getType msg) +:+ ": "
      +:+ contentText stringify (content msg) +:+ nl +:+ nl) ms acc
  = acc +:+ conversationOf stringify ms.
Proof.
  unfold conversationOf. revert acc. induction ms as [|m ms IH]; intros acc.
  - simpl. rewrite string_app_nil_r. reflexivity.
  - simpl fold_left. rewrite IH. rewrite (IH ("" +:+ _)).
    rewrite append_nil, !string_app_assoc. reflexivity.
Qed.

Lemma conversationOf_cons stringify m ms :
  conversationOf stringify (m :: ms)
  = (roleLabel (_getType m) +:+ ": " +:+ contentText stringify (content m) +:+ nl +:+ nl)
    +:+ conversationOf stringify ms.
Proof.
  unfold conversationOf at 1. simpl fold_left. rewrite conversationOf_acc.
  rewrite append_nil. reflexivity.
Qed.

Lemma conversationOfAll_acc stringify ms acc :
  fold_left (fun conversation msg =>
    if MessageType_eqb (_getType msg) system then conversation
    else
      let role := match _getType msg with
                  | human => "User" | ai => "Assistant" | tool => "Tool"
                  | _ => "Unknown"
                  end in
      conversation +:+ role +:+ ": " +:+ contentText stringify (content msg) +:+ nl +:+ nl)
    ms acc
  = acc +:+ conversationOfAll stringify ms.
Proof.
  unfold conversationOfAll. revert acc. induction ms as [|m ms IH]; intros acc.
  - simpl. rewrite string_app_nil_r. reflexivity.
  - simpl fold_left. destruct (MessageType_eqb (_getType m) system).
    + apply IH.
    + cbv zeta. rewrite IH. rewrite (IH ("" +:+ _)).
      rewrite append_nil, !string_app_assoc. reflexivity.
Qed.

(** X5.  The transcript of the forced path is the transcript of the history
    with its system messages removed: nothing of a system message, wherever
    it stands, reaches the model; and a transcript is built message by
    message, so that of [a ++ b] is that of [a] followed by that of [b]. *)
Theorem conversationOfAll_skips_system stringify :
  (forall ms : list BaseMessage,
     conversationOfAll stringify ms
     = conversationOf stringify (List.filter (fun m => negb (isSystemMessage m)) ms)) /\
  (forall a b : list BaseMessage,
     conversationOf stringify (a ++ b)
     = conversationOf stringify a +:+ conversationOf stringify b) /\
  (forall a b : list BaseMessage,
     conversationOfAll stringify (a ++ b)
     = conversationOfAll stringify a +:+ conversationOfAll stringify b).
Proof.
  split; [|split].
  - intros ms. induction ms as [|m ms IH]; [reflexivity|].
    unfold conversationOfAll at 1. simpl fold_left. simpl List.filter.
    unfold isSystemMessage at 1.
    destruct (MessageType_eqb (_getType m) system) eqn:E; simpl negb.
    + exact IH.
    + cbv zeta. rewrite conversationOfAll_acc, conversationOf_cons, IH, append_nil.
      f_equal. destruct (_getType m); try reflexivity. discriminate E.
  - intros a b. unfold conversationOf at 1. rewrite fold_left_app.
    fold (conversationOf stringify a). apply conversationOf_acc.
  - intros a b. unfold conversationOfAll at 1. rewrite fold_left_app.
    fold (conversationOfAll stringify a). apply conversationOfAll_acc.
Qed.

(** ** SessionManager *)

Lemma addMessage_run message sessionId id s ms w :
  truthy (orStringOpt sessionId (currentSessionId w)) = Some id ->
  sessions w !! id = Some s ->
  arrays w !! session.messages s = Some ms ->
  run (addMessage message sessionId) w =
  (Return tt,
   set_sessions (fun m => <[id := touched s (now w)]> m)
     (with_arrays w (<[session.messages s := ms ++ [message]]> (arrays w)))).
Proof.
  intros Hid Hs Hm. unfold run, addMessage, getWorld, mbind, M_bind.
  rewrite Hid, Hs. unfold push. rewrite Hm. reflexivity.
Qed.

(** X6.  [addMessage] pushes onto the array the session holds: afterwards
    the session holds its former messages followed by the new one, in the
    same array ([getMessages] returns the reference it returned before), no
    array is allocated, no other array changes, and [updatedAt] is the
    current time. *)
Theorem addMessage_appends message sessionId id s (ms : list BaseMessage) w :
  truthy (orStringOpt sessionId (currentSessionId w)) = Some id ->
  sessions w !! id = Some s ->
  arrays w !! session.messages s = Some ms ->
  exists w',
    run (addMessage message sessionId) w = (Return tt, w') /\
    sessionMessages w' sessionId = ms ++ [message] /\
    run (getMessages sessionId) w' = (Return (session.messages s), w') /\
    length (arrays w') = length (arrays w) /\
    (forall r, r <> session.messages s -> arrays w' !! r = arrays w !! r) /\
    (forall s', sessions w' !! id = Some s' ->
                session.updatedAt (session.metadata s') = now w) /\
    (forall other, other <> id -> sessions w' !! other = sessions w !! other).
Proof.
  intros Hid Hs Hm.
  assert (session.messages s < length (arrays w)) as Hlt by (eapply lookup_lt_Some; eauto).
  rewrite (addMessage_run message sessionId id s ms w Hid Hs Hm).
  eexists. split; [reflexivity|].
  cbn [arrays sessions currentSessionId set_sessions with_arrays set_arrays].
  split; [|split; [|split; [|split; [|split]]]].
  - unfold sessionMessages.
    cbn [arrays sessions currentSessionId set_sessions with_arrays set_arrays].
    rewrite Hid, lookup_insert_eq. cbn [session.messages touched].
    rewrite list_lookup_insert_eq by exact Hlt. reflexivity.
  - unfold run, getMessages, getSession, getWorld, mbind, M_bind.
    cbn [arrays sessions currentSessionId set_sessions with_arrays set_arrays].
    rewrite Hid. unfold mret, M_ret. rewrite lookup_insert_eq. reflexivity.
  - apply length_insert.
  - intros r Hr. apply list_lookup_insert_ne. congruence.
  - intros s' H. rewrite lookup_insert_eq in H. injection H as <-. reflexivity.
  - intros other Hother. apply lookup_insert_ne. congruence.
Qed.

Lemma addMessage_appends_witness :
  exists w',
    run (addMessage (HumanMessage "next") None)
        (twoSessions [HumanMessage "a"] [HumanMessage "b"]) = (Return tt, w') /\
    sessionMessages w' None = [HumanMessage "a"; HumanMessage "next"] /\
    sessionMessages w' (Some "s2") = [HumanMessage "b"].
Proof.
  destruct (addMessage_appends (HumanMessage "next") None "s1"
              (session.mkSession "s1" 0 (session.mkMetadata 0 0)) [HumanMessage "a"]
              (twoSessions [HumanMessage "a"] [HumanMessage "b"])
              eq_refl eq_refl eq_refl)
    as [w' [Hrun [Hmessages [_ [_ [Harrays [_ Hothers]]]]]]].
  exists w'. split; [exact Hrun|]. split; [exact Hmessages|].
  unfold sessionMessages.
  assert (currentSessionId w' = Some "s1") as Hcur.
  { vm_compute in Hrun. injection Hrun as <-. reflexivity. }
  rewrite Hcur. cbn [orStringOpt truthy String.eqb Ascii.eqb Bool.eqb].
  rewrite (Hothers "s2") by discriminate.
  change (sessions (twoSessions [HumanMessage "a"] [HumanMessage "b"]) !! "s2")
    with (Some (session.mkSession "s2" 1 (session.mkMetadata 1 1))).
  cbn [session.messages]. rewrite (Harrays 1) by discriminate. reflexivity.
Defined.

(** X7.  Without a session to add to, [addMessage] throws and changes
    nothing: "활성 세션이 없습니다" when no id is given and no session is
    current, "세션을 찾을 수 없습니다: <id>" when the id names no session. *)
Theorem addMessage_without_session message sessionId w :
  match truthy (orStringOpt sessionId (currentSessionId w)) with
  | Some id => sessions w !! id = None
  | None => True
  end ->
  run (addMessage message sessionId) w =
  (Throw (Error match truthy (orStringOpt sessionId (currentSessionId w)) with
                | Some id => "세션을 찾을 수 없습니다: " +:+ id
                | None => "활성 세션이 없습니다"
                end), w).
Proof.
  intros H. unfold run, addMessage, getWorld, mbind, M_bind.
  destruct (truthy (orStringOpt sessionId (currentSessionId w))) as [id|].
  - rewrite H. reflexivity.
  - reflexivity.
Qed.

Lemma addMessage_without_session_witness :
  run (addMessage (HumanMessage "next") (Some "s3"))
      (twoSessions [HumanMessage "a"] [HumanMessage "b"])
  = (Throw (Error ("세션을 찾을 수 없습니다: " +:+ "s3")),
     twoSessions [HumanMessage "a"] [HumanMessage "b"]).
Proof.
  apply (addMessage_without_session (HumanMessage "next") (Some "s3")
           (twoSessions [HumanMessage "a"] [HumanMessage "b"])).
  reflexivity.
Defined.

Lemma addMessagesFrom_run (messages : ref) sessionId id :
  forall rest done cur s w fuel,
    truthy (orStringOpt sessionId (currentSessionId w)) = Some id ->
    sessions w !! id = Some s ->
    arrays w !! session.messages s = Some cur ->
    arrays w !! messages = Some (done ++ rest) ->
    messages <> session.messages s ->
    length rest < fuel ->
    exists w',
      run (addMessagesFrom fuel messages (length done) sessionId) w = (Return tt, w') /\
      arrays w' = <[session.messages s := cur ++ rest]> (arrays w) /\
      currentSessionId w' = currentSessionId w /\
      (exists s', sessions w' !! id = Some s' /\ session.messages s' = session.messages s) /\
      (forall other, other <> id -> sessions w' !! other = sessions w !! other).
Proof.
  induction rest as [|m rest IH]; intros done cur s w fuel Hid Hs Hcur Hm Hne Hfuel;
    (destruct fuel as [|fuel]; [simpl in Hfuel; lia|]); unfold run; simpl addMessagesFrom.
  - rewrite (bind_readArray _ _ _ _ Hm).
    rewrite (proj2 (lookup_ge_None _ _)) by (rewrite length_app; simpl; lia).
    exists w. split; [reflexivity|]. rewrite app_nil_r.
    split; [symmetry; apply list_insert_id; exact Hcur|]. split; [reflexivity|].
    split; [exists s; auto|auto].
  - rewrite (bind_readArray _ _ _ _ Hm).
    rewrite list_lookup_middle by reflexivity.
    assert (session.messages s < length (arrays w)) as Hlt by (eapply lookup_lt_Some; eauto).
    rewrite (bind_run _ _ _ _ _ (addMessage_run m sessionId id s cur w Hid Hs Hcur)).
    set (w1 := set_sessions (fun m0 => <[id := touched s (now w)]> m0)
                 (with_arrays w (<[session.messages s := cur ++ [m]]> (arrays w)))).
    destruct (IH (done ++ [m]) (cur ++ [m]) (touched s (now w)) w1 fuel)
      as [w' [Hrun [Harrays [Hcurrent [[s' [Hs' Hsame]] Hothers]]]]].
    + exact Hid.
    + unfold w1. cbn [sessions set_sessions]. apply lookup_insert_eq.
    + unfold w1. cbn [arrays set_sessions with_arrays set_arrays session.messages touched].
      apply list_lookup_insert_eq. exact Hlt.
    + unfold w1. cbn [arrays set_sessions with_arrays set_arrays].
      rewrite list_lookup_insert_ne by congruence. rewrite <- app_assoc. exact Hm.
    + exact Hne.
    + simpl in Hfuel. lia.
    + rewrite length_app, Nat.add_1_r in Hrun. unfold run in Hrun. rewrite Hrun.
      exists w'. split; [reflexivity|].
      split.
      { rewrite Harrays. unfold w1.
        cbn [arrays set_sessions with_arrays set_arrays session.messages touched].
        rewrite list_insert_insert_eq, <- app_assoc. reflexivity. }
      split; [exact Hcurrent|]. split; [exists s'; auto|].
      intros other Hother. rewrite (Hothers other Hother). unfold w1.
      cbn [sessions set_sessions]. apply lookup_insert_ne. congruence.
Qed.

(** X8.  [addMessages] appends the elements of the array it is given, in
    order, to the session's array, provided the two are different arrays;
    the array given is left as it was. *)
Theorem addMessages_appends
    (messages : ref) sessionId id s (ms new : list BaseMessage) w :
  truthy (orStringOpt sessionId (currentSessionId w)) = Some id ->
  sessions w !! id = Some s ->
  arrays w !! session.messages s = Some ms ->
  arrays w !! messages = Some new ->
  messages <> session.messages s ->
  exists w',
    run (addMessages messages sessionId) w = (Return tt, w') /\
    sessionMessages w' sessionId = ms ++ new /\
    arrays w' !! messages = Some new /\
    length (arrays w') = length (arrays w).
Proof.
  intros Hid Hs Hcur Hm Hne.
  assert (session.messages s < length (arrays w)) as Hlt by (eapply lookup_lt_Some; eauto).
  unfold run, addMessages. rewrite (bind_readArray _ _ _ _ Hm).
  destruct (addMessagesFrom_run messages sessionId id new [] ms s w (S (length new))
              Hid Hs Hcur Hm Hne ltac:(lia))
    as [w' [Hrun [Harrays [Hcurrent [[s' [Hs' Hsame]] _]]]]].
  unfold run in Hrun. simpl length in Hrun. rewrite Hrun.
  exists w'. split; [reflexivity|]. split; [|split].
  - unfold sessionMessages. rewrite Hcurrent, Hid, Hs', Hsame, Harrays.
    rewrite list_lookup_insert_eq by exact Hlt. reflexivity.
  - rewrite Harrays, list_lookup_insert_ne by congruence. exact Hm.
  - rewrite Harrays. apply length_insert.
Qed.

Lemma addMessages_appends_witness :
  exists w',
    run (addMessages 1 None) (twoSessions [HumanMessage "a"] [AIMessage "b"; AIMessage "c"])
      = (Return tt, w') /\
    sessionMessages w' None = [HumanMessage "a"; AIMessage "b"; AIMessage "c"] /\
    arrays w' !! 1 = Some [AIMessage "b"; AIMessage "c"].
Proof.
  destruct (addMessages_appends 1 None "s1"
              (session.mkSession "s1" 0 (session.mkMetadata 0 0))
              [HumanMessage "a"] [AIMessage "b"; AIMessage "c"]
              (twoSessions [HumanMessage "a"] [AIMessage "b"; AIMessage "c"])
              eq_refl eq_refl eq_refl eq_refl ltac:(discriminate))
    as [w' [Hrun [Hmessages [Harray _]]]].
  exists w'. split; [exact Hrun|]. split; [exact Hmessages|exact Harray].
Defined.

Lemma addMessagesFrom_own_array sessionId id :
  forall fuel i cur s w,
    truthy (orStringOpt sessionId (currentSessionId w)) = Some id ->
    sessions w !! id = Some s ->
    arrays w !! session.messages s = Some cur ->
    i < length cur ->
    fst (run (addMessagesFrom fuel (session.messages s) i sessionId) w) = Stuck.
Proof.
  induction fuel as [|fuel IH]; intros i cur s w Hid Hs Hcur Hi; [reflexivity|].
  unfold run. simpl addMessagesFrom. rewrite (bind_readArray _ _ _ _ Hcur).
  destruct (cur !! i) as [m|] eqn:Em; [|apply lookup_ge_None in Em; lia].
  assert (session.messages s < length (arrays w)) as Hlt by (eapply lookup_lt_Some; eauto).
  rewrite (bind_run _ _ _ _ _ (addMessage_run m sessionId id s cur w Hid Hs Hcur)).
  apply (IH (S i) (cur ++ [m]) (touched s (now w))).
  - exact Hid.
  - cbn [sessions set_sessions]. apply lookup_insert_eq.
  - cbn [arrays set_sessions with_arrays set_arrays session.messages touched].
    apply list_lookup_insert_eq. exact Hlt.
  - rewrite length_app. simpl. lia.
Qed.

(** X9.  Given the session's own array, when it is not empty,
    [addMessages] does not come to an end: every message it adds
    lengthens the array it walks, and whatever the fuel, the loop has not
    finished when the fuel is spent. *)
Theorem addMessages_own_array_never_ends sessionId id s (ms : list BaseMessage) w :
  truthy (orStringOpt sessionId (currentSessionId w)) = Some id ->
  sessions w !! id = Some s ->
  arrays w !! session.messages s = Some ms ->
  ms <> [] ->
  forall fuel,
    fst (run (addMessagesFrom fuel (session.messages s) 0 sessionId) w) = Stuck.
Proof.
  intros Hid Hs Hm Hne fuel.
  apply (addMessagesFrom_own_array sessionId id fuel 0 ms s w Hid Hs Hm).
  destruct ms; [contradiction|simpl; lia].
Qed.

Lemma addMessages_own_array_never_ends_witness :
  fst (run (addMessagesFrom 1000 0 0 None)
           (twoSessions [HumanMessage "a"] [AIMessage "b"])) = Stuck.
Proof.
  apply (addMessages_own_array_never_ends None "s1"
           (session.mkSession "s1" 0 (session.mkMetadata 0 0)) [HumanMessage "a"]
           (twoSessions [HumanMessage "a"] [AIMessage "b"])
           eq_refl eq_refl eq_refl ltac:(discriminate) 1000).
Defined.

(** X10.  The array given to [replaceMessages] becomes the session's array
    itself, not a copy: a message added afterwards is pushed onto that very
    array, and the array the session held before no longer changes. *)
Theorem replaceMessages_shares_array
    (messages : ref) message sessionId id s (new : list BaseMessage) w :
  truthy (orStringOpt sessionId (currentSessionId w)) = Some id ->
  sessions w !! id = Some s ->
  arrays w !! messages = Some new ->
  exists w',
    run (_ ← replaceMessages messages sessionId; addMessage message sessionId) w
      = (Return tt, w') /\
    run (getMessages sessionId) w' = (Return messages, w') /\
    arrays w' !! messages = Some (new ++ [message]) /\
    sessionMessages w' sessionId = new ++ [message] /\
    (messages <> session.messages s ->
     arrays w' !! session.messages s = arrays w !! session.messages s).
Proof.
  intros Hid Hs Hm.
  assert (messages < length (arrays w)) as Hlt by (eapply lookup_lt_Some; eauto).
  unfold run.
  rewrite (bind_run _ _ _ _ _ (replaceMessages_run messages sessionId id s w Hid Hs)).
  set (w1 := set_sessions (fun m => <[id := replacedSession s messages (now w)]> m) w).
  assert (run (addMessage message sessionId) w1
          = (Return tt,
             set_sessions
               (fun m => <[id := touched (replacedSession s messages (now w)) (now w1)]> m)
               (with_arrays w1 (<[messages := new ++ [message]]> (arrays w1))))) as Hadd.
  { apply (addMessage_run message sessionId id (replacedSession s messages (now w)) new w1).
    - exact Hid.
    - apply lookup_insert_eq.
    - exact Hm. }
  unfold run in Hadd. cbv beta. rewrite Hadd. clear Hadd. subst w1.
  eexists. split; [reflexivity|].
  cbn [arrays sessions currentSessionId set_sessions with_arrays set_arrays
       session.messages replacedSession touched].
  split; [|split; [|split]].
  - unfold run, getMessages, getSession, getWorld, mbind, M_bind.
    cbn [arrays sessions currentSessionId set_sessions with_arrays set_arrays].
    rewrite Hid. unfold mret, M_ret. rewrite lookup_insert_eq. reflexivity.
  - apply list_lookup_insert_eq. exact Hlt.
  - unfold sessionMessages.
    cbn [arrays sessions currentSessionId set_sessions with_arrays set_arrays].
    rewrite Hid, lookup_insert_eq. cbn [session.messages touched replacedSession].
    rewrite list_lookup_insert_eq by exact Hlt. reflexivity.
  - intros Hne. apply list_lookup_insert_ne. exact Hne.
Qed.

Lemma replaceMessages_shares_array_witness :
  exists w',
    run (_ ← replaceMessages 1 None; addMessage (HumanMessage "next") None)
        (twoSessions [HumanMessage "a"] [AIMessage "b"]) = (Return tt, w') /\
    arrays w' !! 1 = Some [AIMessage "b"; HumanMessage "next"] /\
    arrays w' !! 0 = Some [HumanMessage "a"].
Proof.
  destruct (replaceMessages_shares_array 1 (HumanMessage "next") None "s1"
              (session.mkSession "s1" 0 (session.mkMetadata 0 0)) [AIMessage "b"]
              (twoSessions [HumanMessage "a"] [AIMessage "b"])
              eq_refl eq_refl eq_refl)
    as [w' [Hrun [_ [Harray [_ Hold]]]]].
  exists w'. split; [exact Hrun|]. split; [exact Harray|].
  apply (Hold ltac:(discriminate)).
Defined.

(** X11.  [clearSession] never throws.  Afterwards the session holds no
    message; it holds a new array, so the one it held before (which a
    caller of [getMessages] may still have) keeps its messages, like every
    other array; other sessions are as they were.  Without a session to
    clear nothing happens. *)
Theorem clearSession_empties sessionId w :
  exists w',
    run (clearSession sessionId) w = (Return tt, w') /\
    sessionMessages w' sessionId = [] /\
    (forall r v, arrays w !! r = Some v -> arrays w' !! r = Some v) /\
    (forall id, truthy (orStringOpt sessionId (currentSessionId w)) <> Some id ->
                sessions w' !! id = sessions w !! id) /\
    (match truthy (orStringOpt sessionId (currentSessionId w)) with
     | Some id => sessions w !! id = None
     | None => True
     end -> w' = w).
Proof.
  unfold run, clearSession, getWorld, mbind, M_bind.
  destruct (truthy (orStringOpt sessionId (currentSessionId w))) as [id|] eqn:Hid.
  - destruct (sessions w !! id) as [s|] eqn:Hs.
    + eexists. split; [reflexivity|].
      cbn [arrays sessions currentSessionId set_sessions with_arrays set_arrays].
      split; [|split; [|split]].
      * unfold sessionMessages.
        cbn [arrays sessions currentSessionId set_sessions with_arrays set_arrays].
        rewrite Hid, lookup_insert_eq. cbn [session.messages replacedSession].
        rewrite lookup_length_app. reflexivity.
      * intros r v H. rewrite lookup_app_l; [exact H|]. eapply lookup_lt_Some; eauto.
      * intros other Hother. apply lookup_insert_ne. congruence.
      * intros H. discriminate H.
    + exists w. split; [reflexivity|]. split.
      { unfold sessionMessages. rewrite Hid, Hs. reflexivity. }
      split; [auto|]. split; [auto|]. intros _. reflexivity.
  - exists w. split; [reflexivity|]. split.
    { unfold sessionMessages. rewrite Hid. reflexivity. }
    split; [auto|]. split; [auto|]. intros _. reflexivity.
Qed.

Lemma twoSessions_valid first second : sessionsValid (twoSessions first second).
Proof.
  intros id s H. unfold twoSessions in H. simpl in H.
  apply lookup_insert_Some in H. destruct H as [[_ <-]|[_ H]]; [simpl; lia|].
  apply lookup_insert_Some in H. destruct H as [[_ <-]|[_ H]]; [simpl; lia|].
  rewrite lookup_empty in H. discriminate.
Qed.

(** X12.  [deleteSession] answers whether the session existed.  Afterwards
    the id names no session, the other sessions and every array are as they
    were, and the current session is reset exactly when it was the one
    deleted. *)
Theorem deleteSession_removes sessionId w :
  exists w',
    run (deleteSession sessionId) w
      = (Return (bool_decide (is_Some (sessions w !! sessionId))), w') /\
    sessions w' !! sessionId = None /\
    (forall other, other <> sessionId -> sessions w' !! other = sessions w !! other) /\
    arrays w' = arrays w /\
    currentSessionId w'
      = (if bool_decide (is_Some (sessions w !! sessionId))
            && bool_decide (currentSessionId w = Some sessionId)
         then None else currentSessionId w) /\
    run (hasSession sessionId) w' = (Return false, w').
Proof.
  unfold run, deleteSession, hasSession, getWorld, mbind, M_bind. cbn [modifyWorld].
  assert (bool_decide (is_Some (@None session.Session)) = false) as Hnone.
  { apply bool_decide_eq_false. intros [x Hx]. discriminate. }
  destruct (bool_decide (is_Some (sessions w !! sessionId))
            && bool_decide (currentSessionId w = Some sessionId)) eqn:E;
    (eexists; split; [reflexivity|]);
    cbn [arrays sessions currentSessionId set_sessions set_currentSessionId];
    rewrite lookup_delete_eq, Hnone;
    (split; [reflexivity|]);
    (split; [intros other H; apply lookup_delete_ne; congruence|]);
    repeat split.
Qed.

(** X13.  Once the current session is deleted there is no current session:
    a message added without naming a session is refused with
    "활성 세션이 없습니다", and the sessions that remain are not touched. *)
Theorem deleteSession_current_then_addMessage sessionId s message w :
  sessions w !! sessionId = Some s ->
  currentSessionId w = Some sessionId ->
  exists w',
    run (deleted ← deleteSession sessionId; addMessage message None) w
      = (Throw (Error "활성 세션이 없습니다"), w') /\
    currentSessionId w' = None /\
    sessions w' = delete sessionId (sessions w) /\
    arrays w' = arrays w.
Proof.
  intros Hs Hcur.
  unfold run, deleteSession, addMessage, getWorld, mbind, M_bind. cbn [modifyWorld].
  rewrite Hs, Hcur.
  rewrite (bool_decide_eq_true_2 (is_Some (Some s))) by eauto.
  rewrite (bool_decide_eq_true_2 (Some sessionId = Some sessionId)) by reflexivity.
  cbn [andb modifyWorld currentSessionId set_currentSessionId set_sessions orStringOpt truthy].
  eexists. split; [reflexivity|]. repeat split.
Qed.

Lemma deleteSession_current_then_addMessage_witness :
  exists w',
    run (deleted ← deleteSession "s1"; addMessage (HumanMessage "next") None)
        (twoSessions [HumanMessage "a"] [AIMessage "b"])
      = (Throw (Error "활성 세션이 없습니다"), w') /\
    currentSessionId w' = None /\
    sessions w' !! "s2" = Some (session.mkSession "s2" 1 (session.mkMetadata 1 1)).
Proof.
  destruct (deleteSession_current_then_addMessage "s1"
              (session.mkSession "s1" 0 (session.mkMetadata 0 0)) (HumanMessage "next")
              (twoSessions [HumanMessage "a"] [AIMessage "b"]) eq_refl eq_refl)
    as [w' [Hrun [Hcur [Hsessions _]]]].
  exists w'. split; [exact Hrun|]. split; [exact Hcur|].
  rewrite Hsessions. reflexivity.
Defined.

(** X14.  [getLastMessages(count)] returns a new array: the last [count]
    messages of the session when [0 < count], all of them when [count] is
    at least their number, and, since [slice(-0)] is [slice(0)], all of
    them as well when [count] is 0; a negative [count] drops the first
    [-count] messages.  The session is not touched. *)
Theorem getLastMessages_slice count sessionId id s (ms : list BaseMessage) w :
  truthy (orStringOpt sessionId (currentSessionId w)) = Some id ->
  sessions w !! id = Some s ->
  arrays w !! session.messages s = Some ms ->
  exists last,
    run (getLastMessages count sessionId) w
      = (Return (length (arrays w)), with_arrays w (arrays w ++ [last])) /\
    last = (if (0 <? count)%Z
            then drop (length ms - Z.to_nat count) ms
            else drop (Z.to_nat (- count)) ms) /\
    ((0 < count <= Z.of_nat (length ms))%Z -> length last = Z.to_nat count) /\
    ((Z.of_nat (length ms) <= count)%Z -> last = ms) /\
    (count = 0%Z -> last = ms).
Proof.
  intros Hid Hs Hm.
  unfold run, getLastMessages.
  rewrite (bind_run _ _ _ _ _ (getMessages_run sessionId id s w Hid Hs)).
  unfold slice. rewrite (bind_readArray _ _ _ _ Hm).
  exists (slice_list ms (- count) None). split; [reflexivity|].
  assert (slice_list ms (- count) None
          = if (0 <? count)%Z
            then drop (length ms - Z.to_nat count) ms
            else drop (Z.to_nat (- count)) ms) as Hlast.
  { unfold slice_list, relativeIndex.
    destruct (Z.ltb_spec 0 count) as [Hpos|Hnonpos].
    - destruct (Z.ltb_spec (- count) 0) as [_|?]; [|lia].
      rewrite take_ge by (rewrite length_drop; lia).
      f_equal. lia.
    - destruct (Z.ltb_spec (- count) 0) as [?|_]; [lia|].
      rewrite take_ge by (rewrite length_drop; lia).
      destruct (Z.le_ge_cases (- count) (Z.of_nat (length ms))) as [Hle|Hge].
      + rewrite Z.min_l by lia. reflexivity.
      + rewrite Z.min_r by lia. rewrite Nat2Z.id.
        rewrite !drop_ge by lia. reflexivity. }
  rewrite Hlast. split; [reflexivity|]. split; [|split].
  - intros [Hpos Hle]. destruct (Z.ltb_spec 0 count); [|lia].
    rewrite length_drop. lia.
  - intros Hge. destruct (Z.ltb_spec 0 count) as [Hpos|Hnonpos].
    + replace (length ms - Z.to_nat count) with 0 by lia. reflexivity.
    + assert (length ms = 0) as Hnil by lia.
      destruct ms; [|discriminate Hnil]. rewrite drop_nil. reflexivity.
  - intros ->. reflexivity.
Qed.

Lemma getLastMessages_slice_witness :
  exists last,
    run (getLastMessages 0 None)
        (twoSessions [HumanMessage "a"; AIMessage "b"; HumanMessage "c"] [])
      = (Return 2,
         with_arrays (twoSessions [HumanMessage "a"; AIMessage "b"; HumanMessage "c"] [])
           ([[HumanMessage "a"; AIMessage "b"; HumanMessage "c"]; []] ++ [last])) /\
    last = [HumanMessage "a"; AIMessage "b"; HumanMessage "c"].
Proof.
  destruct (getLastMessages_slice 0 None "s1"
              (session.mkSession "s1" 0 (session.mkMetadata 0 0))
              [HumanMessage "a"; AIMessage "b"; HumanMessage "c"]
              (twoSessions [HumanMessage "a"; AIMessage "b"; HumanMessage "c"] [])
              eq_refl eq_refl eq_refl) as [last [Hrun [_ [_ [_ Hzero]]]]].
  exists last. split; [exact Hrun|]. apply Hzero. reflexivity.
Defined.

(** X15.  [createSession] makes the new session the current one, with no
    message, in a new array; a session that had the same id is replaced and
    its messages are no longer the session's (the array that held them is
    not changed); other sessions are as they were.  A message added next,
    without naming a session, is the first of the new session. *)
Theorem createSession_then_addMessage generated sessionId metadata message w :
  orString sessionId generated <> "" ->
  exists w1 w2,
    run (createSession generated sessionId metadata) w
      = (Return (orString sessionId generated), w1) /\
    currentSessionId w1 = Some (orString sessionId generated) /\
    sessionMessages w1 None = [] /\
    (forall r v, arrays w !! r = Some v -> arrays w1 !! r = Some v) /\
    (forall other, other <> orString sessionId generated ->
                   sessions w1 !! other = sessions w !! other) /\
    run (addMessage message None) w1 = (Return tt, w2) /\
    sessionMessages w2 None = [message] /\
    sessionMessages w2 (Some (orString sessionId generated)) = [message].
Proof.
  intros Hne. set (id := orString sessionId generated) in *.
  assert (truthy (Some id) = Some id) as Htruthy.
  { unfold truthy, orStringOpt. destruct (String.eqb_spec id ""); [contradiction|reflexivity]. }
  assert (forall o, truthy (orStringOpt o (Some id)) = truthy (orStringOpt o (Some id)))
    as _ by reflexivity.
  assert (truthy (orStringOpt None (Some id)) = Some id) as Hnone by exact Htruthy.
  assert (truthy (orStringOpt (Some id) (Some id)) = Some id) as Hsome.
  { unfold orStringOpt at 1. destruct (String.eqb_spec id ""); [contradiction|exact Htruthy]. }
  unfold run, createSession. fold id.
  rewrite bind_newArray. unfold getWorld, mbind, M_bind. cbn [modifyWorld].
  eexists _, _. split; [reflexivity|].
  cbn [arrays sessions currentSessionId set_sessions set_currentSessionId with_arrays
       set_arrays now].
  split; [reflexivity|]. split.
  { unfold sessionMessages.
    cbn [arrays sessions currentSessionId set_sessions set_currentSessionId with_arrays
         set_arrays].
    rewrite Hnone, lookup_insert_eq. cbn [session.messages].
    rewrite lookup_length_app. reflexivity. }
  split.
  { intros r v H. rewrite lookup_app_l; [exact H|]. eapply lookup_lt_Some; eauto. }
  split; [intros other Hother; apply lookup_insert_ne; congruence|].
  match goal with
  | |- addMessage _ _ ?w1 = _ /\ _ =>
      pose proof (addMessage_run message None id
                    {| session.id := id;
                       session.messages := length (arrays w);
                       session.metadata :=
                         {| session.createdAt := default (now w) (createdAt_opt metadata);
                            session.updatedAt := default (now w) (updatedAt_opt metadata) |} |}
                    [] w1 Hnone (lookup_insert_eq _ _ _)
                    (lookup_length_app (arrays w) [] [])) as Hadd
  end.
  unfold run in Hadd. split; [exact Hadd|].
  unfold sessionMessages.
  cbn [arrays sessions currentSessionId set_sessions set_currentSessionId with_arrays
       set_arrays].
  rewrite Hnone, Hsome, lookup_insert_eq. cbn [session.messages touched].
  rewrite insert_length_app, lookup_length_app. split; reflexivity.
Qed.

Lemma createSession_then_addMessage_witness :
  exists w1 w2,
    run (createSession "session_1_x" (Some "s1") (mkPartialMetadata None None))
        (twoSessions [HumanMessage "a"] [AIMessage "b"]) = (Return "s1", w1) /\
    sessionMessages w1 None = [] /\
    arrays w1 !! 0 = Some [HumanMessage "a"] /\
    run (addMessage (HumanMessage "fresh") None) w1 = (Return tt, w2) /\
    sessionMessages w2 None = [HumanMessage "fresh"].
Proof.
  destruct (createSession_then_addMessage "session_1_x" (Some "s1")
              (mkPartialMetadata None None) (HumanMessage "fresh")
              (twoSessions [HumanMessage "a"] [AIMessage "b"]) ltac:(discriminate))
    as [w1 [w2 [Hcreate [_ [Hempty [Harrays [_ [Hadd [Hmessages _]]]]]]]]].
  exists w1, w2. split; [exact Hcreate|]. split; [exact Hempty|].
  split; [apply Harrays; reflexivity|]. split; [exact Hadd|exact Hmessages].
Defined.

(** ** The /status handler, the compact node and the /compact handler
    without a session *)

(** X16.  The /status handler only reads: however it ends, it leaves every
    array and every session as it was, and when the session exists the
    store is exactly what it was (without one, an empty array is allocated
    by [getMessages]).  It answers "executed" when the estimate of the
    session's messages returns, and throws the tokenizer's exception when
    it does not. *)
Theorem handlerStatus_reads_only this args context_sessionId w :
  sessionsValid w ->
  exists w',
    run (handlerStatus this args context_sessionId) w
      = (match estimateTokens this (sessionMessages w context_sessionId) with
         | Ok tokens => Return executed
         | Thrown e => Throw e
         end, w') /\
    extends w w' /\
    sessionMessages w' context_sessionId = sessionMessages w context_sessionId /\
    (forall id s,
       truthy (orStringOpt context_sessionId (currentSessionId w)) = Some id ->
       sessions w !! id = Some s -> w' = w).
Proof.
  intros Hvalid. unfold run, handlerStatus.
  rewrite (bind_run _ _ _ _ _ (getCurrentSessionId_run w)).
  unfold sessionMessages at 1.
  set (sessionId := orStringOpt context_sessionId (currentSessionId w)).
  assert (truthy (orStringOpt sessionId (currentSessionId w)) = truthy sessionId) as Hidem
    by (unfold sessionId; rewrite orStringOpt_idem; reflexivity).
  destruct (truthy sessionId) as [id|] eqn:Hid.
  - destruct (sessions w !! id) as [s|] eqn:Hs.
    + assert (session.messages s < length (arrays w)) as Hlt by (eapply Hvalid; eauto).
      destruct (lookup_lt_is_Some_2 _ _ Hlt) as [ms Hm].
      rewrite (bind_run _ _ _ _ _ (getMessages_run sessionId id s w Hidem Hs)).
      rewrite (bind_readArray _ _ _ _ Hm). rewrite Hm. simpl default.
      exists w. split.
      { destruct (estimateTokens this ms); reflexivity. }
      split; [apply extends_refl|]. split; reflexivity.
    + rewrite (bind_run _ _ _ _ _ (getMessages_run_missing sessionId w
                 ltac:(rewrite Hidem; exact Hs))).
      rewrite (bind_readArray (length (arrays w)) []) by (simpl; apply lookup_length_app).
      eexists. split; [reflexivity|]. split; [apply extends_with_arrays|].
      split; [apply extends_sessionMessages; [exact Hvalid|apply extends_with_arrays]|].
      intros id' s' Hid' Hs'. congruence.
  - rewrite (bind_run _ _ _ _ _ (getMessages_run_missing sessionId w
               ltac:(rewrite Hidem; exact I))).
    rewrite (bind_readArray (length (arrays w)) []) by (simpl; apply lookup_length_app).
    eexists. split; [reflexivity|]. split; [apply extends_with_arrays|].
    split; [apply extends_sessionMessages; [exact Hvalid|apply extends_with_arrays]|].
    intros id' s' Hid' Hs'. discriminate.
Qed.

Lemma handlerStatus_reads_only_witness :
  run (handlerStatus sampleCompactor "" None) (sampleWorld scenarioC)
  = (Return executed, sampleWorld scenarioC) /\
  exists e,
    run (handlerStatus strictCompactor "" None)
        (sampleWorld [HumanMessage "what does <|endoftext|> stand for?"])
    = (Throw e, sampleWorld [HumanMessage "what does <|endoftext|> stand for?"]).
Proof.
  split.
  - destruct (handlerStatus_reads_only sampleCompactor "" None (sampleWorld scenarioC)
                (sampleWorld_valid _)) as [w' [Hrun [_ [_ Hsame]]]].
    rewrite Hrun. f_equal.
    apply (Hsame "s1" (session.mkSession "s1" 0 (session.mkMetadata 0 0))); reflexivity.
  - exists disallowedSpecialToken.
    destruct (handlerStatus_reads_only strictCompactor "" None
                (sampleWorld [HumanMessage "what does <|endoftext|> stand for?"])
                (sampleWorld_valid _)) as [w' [Hrun [_ [_ Hsame]]]].
    rewrite Hrun. f_equal.
    apply (Hsame "s1" (session.mkSession "s1" 0 (session.mkMetadata 0 0))); reflexivity.
Defined.

Section CompactNode.

Variable stringify : list ContentItem -> string.
Variable invoke : string -> Try MessageContent.
Variable this : ContextCompactor.

Lemma createCompactNode_run state_sessionId id s ms w :
  truthy (orStringOpt (Some state_sessionId) (currentSessionId w)) = Some id ->
  sessions w !! id = Some s ->
  arrays w !! session.messages s = Some ms ->
  run (createCompactNode stringify invoke this state_sessionId) w =
  match run (compactMessages stringify invoke this (session.messages s) false) w with
  | (Return result, w1) =>
      if compacted result
      then (Return tt,
            set_sessions (fun m => <[id := replacedSession s (messages result) (now w1)]> m)
              w1)
      else (Return tt, w1)
  | (Throw e, w1) => (Throw e, w1)
  | (Stuck, w1) => (Stuck, w1)
  end.
Proof.
  intros Hid Hs Hm.
  pose proof (compactMessages_extends stringify invoke this (session.messages s) false ms w Hm)
    as [more Hext].
  unfold run, createCompactNode.
  rewrite (bind_run _ _ _ _ _ (getMessages_run (Some state_sessionId) id s w Hid Hs)).
  unfold run in *. unfold mbind at 1. unfold M_bind at 1.
  destruct (compactMessages stringify invoke this (session.messages s) false w)
    as [[result|e|] w1]; try reflexivity.
  simpl snd in Hext. subst w1.
  destruct (compacted result); [|reflexivity].
  apply (replaceMessages_run (messages result) (Some state_sessionId) id s); assumption.
Qed.

End CompactNode.

(** X17.  Below the threshold the compact node does nothing at all: the
    store after it is the store before it. *)
Theorem createCompactNode_below_threshold
    stringify invoke this state_sessionId id s (ms : list BaseMessage) w :
  truthy (orStringOpt (Some state_sessionId) (currentSessionId w)) = Some id ->
  sessions w !! id = Some s ->
  arrays w !! session.messages s = Some ms ->
  shouldCompact this ms = Ok false ->
  run (createCompactNode stringify invoke this state_sessionId) w = (Return tt, w).
Proof.
  intros Hid Hs Hm Hlow.
  rewrite (createCompactNode_run stringify invoke this _ _ _ _ _ Hid Hs Hm).
  rewrite (compactMessages_run stringify invoke this _ _ _ _ Hm). cbv zeta.
  destruct (estimateTokens this ms) as [tokens|e] eqn:Etokens.
  - rewrite (shouldCompact_Ok this ms tokens Etokens) in Hlow. injection Hlow as ->.
    reflexivity.
  - rewrite (shouldCompact_Thrown this ms e Etokens) in Hlow. discriminate.
Qed.

Lemma createCompactNode_below_threshold_witness :
  shouldCompact sampleCompactor scenarioC = Ok false /\
  run (createCompactNode sampleStringify unreachable sampleCompactor "s1")
      (sampleWorld scenarioC) = (Return tt, sampleWorld scenarioC).
Proof.
  assert (shouldCompact sampleCompactor scenarioC = Ok false) as Hlow
    by (vm_compute; reflexivity).
  split; [exact Hlow|].
  exact (createCompactNode_below_threshold sampleStringify unreachable sampleCompactor
           "s1" "s1" (session.mkSession "s1" 0 (session.mkMetadata 0 0)) scenarioC
           (sampleWorld scenarioC) eq_refl eq_refl eq_refl Hlow).
Defined.

(** X18.  When compaction is due, something is to be summarized and the
    model answers, the compact node estimates the compacted history: the
    leading system messages, the summary message and the last
    [preserveRecentCount] messages of the former history.  When that
    estimate returns, the session holds the compacted history; when it
    throws (the tokenizer rejects the answer of the model), the node throws
    the same exception and the session holds the history it held.  Either
    way the array that held the former history still holds it. *)
Theorem createCompactNode_replaces_history
    stringify invoke this state_sessionId id s (ms : list BaseMessage) response w :
  truthy (orStringOpt (Some state_sessionId) (currentSessionId w)) = Some id ->
  sessions w !! id = Some s ->
  arrays w !! session.messages s = Some ms ->
  (0 <= preserveRecentCount (options this))%Z ->
  shouldCompact this ms = Ok true ->
  middleOf this ms <> [] ->
  invoke (summaryPrompt (conversationOf stringify (middleOf this ms))) = Ok response ->
  let compactedMessages :=
    leadingSystem ms
    ++ [SystemMessage ("[이전 대화 요약]" +:+ nl +:+ contentText stringify response)]
    ++ drop (length ms - Z.to_nat (preserveRecentCount (options this))) ms in
  exists w',
    arrays w' !! session.messages s = Some ms /\
    match estimateTokens this compactedMessages with
    | Ok compactedTokens =>
        run (createCompactNode stringify invoke this state_sessionId) w = (Return tt, w') /\
        sessionMessages w' (Some state_sessionId) = compactedMessages
    | Thrown e =>
        run (createCompactNode stringify invoke this state_sessionId) w = (Throw e, w') /\
        sessions w' = sessions w /\
        sessionMessages w' (Some state_sessionId) = ms
    end.
Proof.
  intros Hid Hs Hm Hk Hdue Hmid Hok. cbv zeta.
  assert (session.messages s < length (arrays w)) as Hlt by (eapply lookup_lt_Some; eauto).
  rewrite (createCompactNode_run stringify invoke this _ _ _ _ _ Hid Hs Hm).
  rewrite (compactMessages_run stringify invoke this _ _ _ _ Hm). cbv zeta.
  destruct (estimateTokens this ms) as [tokens|e] eqn:Etokens.
  2:{ rewrite (shouldCompact_Thrown this ms e Etokens) in Hdue. discriminate. }
  rewrite (shouldCompact_Ok this ms tokens Etokens) in Hdue. injection Hdue as ->.
  rewrite andb_false_r.
  destruct (length (middleOf this ms) =? 0)%nat eqn:Elen.
  { apply Nat.eqb_eq, length_zero_iff_nil in Elen. contradiction. }
  rewrite Hok. rewrite <- (recentOf_last this ms Hk Hmid). unfold summaryMessage.
  destruct (estimateTokens this (leadingSystem ms ++ _)) as [compactedTokens|e].
  - cbn [compacted messages].
    eexists. split; [|split; [reflexivity|]].
    + cbn [arrays sessions set_sessions with_arrays set_arrays].
      rewrite <- app_assoc, lookup_app_l by exact Hlt. exact Hm.
    + unfold sessionMessages.
      cbn [arrays sessions currentSessionId set_sessions with_arrays set_arrays].
      rewrite Hid, lookup_insert_eq. cbn [session.messages replacedSession].
      rewrite lookup_length_app. reflexivity.
  - eexists. split; [|split; [reflexivity|split; [reflexivity|]]].
    + cbn [arrays sessions set_sessions with_arrays set_arrays].
      rewrite <- app_assoc, lookup_app_l by exact Hlt. exact Hm.
    + unfold sessionMessages.
      cbn [arrays sessions currentSessionId set_sessions with_arrays set_arrays].
      rewrite Hid, Hs, <- app_assoc, lookup_app_l by exact Hlt. rewrite Hm. reflexivity.
Qed.

Lemma createCompactNode_replaces_history_witness :
  let history := [SystemMessage "You are a coding agent."; HumanMessage "list the files";
                  AIMessage "src and docs"; HumanMessage "thanks"; AIMessage "ok"] in
  let small := {| options := {| contextWindowSize := 100; threshold := 0.7;
                                preserveRecentCount := 2 |};
                  encoding := strictEncoding |} in
  shouldCompact small history = Ok true /\
  (exists w',
     run (createCompactNode sampleStringify (answering "files") small "s1")
         (sampleWorld history) = (Return tt, w') /\
     sessionMessages w' (Some "s1")
       = [SystemMessage "You are a coding agent.";
          SystemMessage ("[이전 대화 요약]" +:+ nl +:+ "files");
          HumanMessage "thanks"; AIMessage "ok"] /\
     arrays w' !! 0 = Some history) /\
  (exists w',
     run (createCompactNode sampleStringify (answering "<|endoftext|>") small "s1")
         (sampleWorld history) = (Throw disallowedSpecialToken, w') /\
     sessionMessages w' (Some "s1") = history).
Proof.
  cbv zeta. split; [vm_compute; reflexivity|]. split.
  - destruct (createCompactNode_replaces_history sampleStringify (answering "files")
             {| options := {| contextWindowSize := 100; threshold := 0.7;
                              preserveRecentCount := 2 |};
                encoding := strictEncoding |}
             "s1" "s1" (session.mkSession "s1" 0 (session.mkMetadata 0 0))
             [SystemMessage "You are a coding agent."; HumanMessage "list the files";
              AIMessage "src and docs"; HumanMessage "thanks"; AIMessage "ok"]
             (CString "files")
             (sampleWorld
                [SystemMessage "You are a coding agent."; HumanMessage "list the files";
                 AIMessage "src and docs"; HumanMessage "thanks"; AIMessage "ok"])
             eq_refl eq_refl eq_refl ltac:(simpl; lia) ltac:(vm_compute; reflexivity)
             ltac:(vm_compute; discriminate) eq_refl) as [w' [Harray Hrun]].
    cbv zeta in Hrun.
    match type of Hrun with
    | match ?scrutinee with _ => _ end =>
        let v := eval vm_compute in scrutinee in change scrutinee with v in Hrun
    end.
    cbv iota beta in Hrun. destruct Hrun as [Hrun Hmessages].
    exists w'. split; [exact Hrun|]. split; [exact Hmessages|exact Harray].
  - destruct (createCompactNode_replaces_history sampleStringify (answering "<|endoftext|>")
             {| options := {| contextWindowSize := 100; threshold := 0.7;
                              preserveRecentCount := 2 |};
                encoding := strictEncoding |}
             "s1" "s1" (session.mkSession "s1" 0 (session.mkMetadata 0 0))
             [SystemMessage "You are a coding agent."; HumanMessage "list the files";
              AIMessage "src and docs"; HumanMessage "thanks"; AIMessage "ok"]
             (CString "<|endoftext|>")
             (sampleWorld
                [SystemMessage "You are a coding agent."; HumanMessage "list the files";
                 AIMessage "src and docs"; HumanMessage "thanks"; AIMessage "ok"])
             eq_refl eq_refl eq_refl ltac:(simpl; lia) ltac:(vm_compute; reflexivity)
             ltac:(vm_compute; discriminate) eq_refl) as [w' [Harray Hrun]].
    cbv zeta in Hrun.
    match type of Hrun with
    | match ?scrutinee with _ => _ end =>
        let v := eval vm_compute in scrutinee in change scrutinee with v in Hrun
    end.
    cbv iota beta in Hrun. destruct Hrun as [Hrun [_ Hmessages]].
    exists w'. split; [exact Hrun|exact Hmessages].
Defined.

(** X19.  When the model throws, the compact node throws the same error
    and has not replaced anything: the session holds the history it held,
    in the array that held it. *)
Theorem createCompactNode_failure
    stringify invoke this state_sessionId id s (ms : list BaseMessage) e w :
  truthy (orStringOpt (Some state_sessionId) (currentSessionId w)) = Some id ->
  sessions w !! id = Some s ->
  arrays w !! session.messages s = Some ms ->
  shouldCompact this ms = Ok true ->
  middleOf this ms <> [] ->
  invoke (summaryPrompt (conversationOf stringify (middleOf this ms))) = Thrown e ->
  exists w',
    run (createCompactNode stringify invoke this state_sessionId) w = (Throw e, w') /\
    sessions w' = sessions w /\
    sessionMessages w' (Some state_sessionId) = ms /\
    run (getMessages (Some state_sessionId)) w' = (Return (session.messages s), w').
Proof.
  intros Hid Hs Hm Hdue Hmid Hfail.
  assert (session.messages s < length (arrays w)) as Hlt by (eapply lookup_lt_Some; eauto).
  rewrite (createCompactNode_run stringify invoke this _ _ _ _ _ Hid Hs Hm).
  rewrite (compactMessages_run stringify invoke this _ _ _ _ Hm). cbv zeta.
  destruct (estimateTokens this ms) as [tokens|e'] eqn:Etokens.
  2:{ rewrite (shouldCompact_Thrown this ms e' Etokens) in Hdue. discriminate. }
  rewrite (shouldCompact_Ok this ms tokens Etokens) in Hdue. injection Hdue as ->.
  rewrite andb_false_r.
  destruct (length (middleOf this ms) =? 0)%nat eqn:Elen.
  { apply Nat.eqb_eq, length_zero_iff_nil in Elen. contradiction. }
  rewrite Hfail.
  eexists. split; [reflexivity|]. split; [reflexivity|]. split.
  - unfold sessionMessages.
    cbn [arrays sessions currentSessionId set_sessions with_arrays set_arrays].
    rewrite Hid, Hs, lookup_app_l by exact Hlt. rewrite Hm. reflexivity.
  - apply (getMessages_run (Some state_sessionId) id s); assumption.
Qed.

Lemma createCompactNode_failure_witness :
  let history := [SystemMessage "You are a coding agent."; HumanMessage "list the files";
                  AIMessage "src and docs"; HumanMessage "thanks"; AIMessage "ok"] in
  let small := {| options := {| contextWindowSize := 100; threshold := 0.7;
                                preserveRecentCount := 2 |};
                  encoding := byteEncoding |} in
  exists w',
    run (createCompactNode sampleStringify unreachable small "s1") (sampleWorld history)
      = (Throw (Error "Connection error."), w') /\
    sessionMessages w' (Some "s1") = history.
Proof.
  cbv zeta.
  destruct (createCompactNode_failure sampleStringify unreachable
           {| options := {| contextWindowSize := 100; threshold := 0.7;
                            preserveRecentCount := 2 |};
              encoding := byteEncoding |}
           "s1" "s1" (session.mkSession "s1" 0 (session.mkMetadata 0 0))
           [SystemMessage "You are a coding agent."; HumanMessage "list the files";
            AIMessage "src and docs"; HumanMessage "thanks"; AIMessage "ok"]
           (Error "Connection error.")
           (sampleWorld
              [SystemMessage "You are a coding agent."; HumanMessage "list the files";
               AIMessage "src and docs"; HumanMessage "thanks"; AIMessage "ok"])
           eq_refl eq_refl eq_refl ltac:(vm_compute; reflexivity)
           ltac:(vm_compute; discriminate) eq_refl)
    as [w' [Hrun [_ [Hmessages _]]]].
  exists w'. split; [exact Hrun|exact Hmessages].
Defined.

(** X20.  Without a session the /compact handler still asks the model, for
    a summary of the empty conversation, and then throws, from
    [replaceMessages]: "활성 세션이 없습니다" when no session is current,
    "세션을 찾을 수 없습니다: <id>" when the id names none.  It answers neither
    "executed" nor an error result, and no session is created. *)
Theorem handlerCompact_without_session
    stringify invoke this args context_sessionId response w :
  match truthy (orStringOpt context_sessionId (currentSessionId w)) with
  | Some id => sessions w !! id = None
  | None => True
  end ->
  invoke (summaryPromptAll (conversationOfAll stringify [])) = Ok response ->
  exists w',
    run (handlerCompact stringify invoke this args context_sessionId) w
      = (Throw (Error match truthy (orStringOpt context_sessionId (currentSessionId w)) with
                      | Some id => "세션을 찾을 수 없습니다: " +:+ id
                      | None => "활성 세션이 없습니다"
                      end), w') /\
    extends w w'.
Proof.
  intros Hid Hok.
  unfold run, handlerCompact.
  rewrite (bind_run _ _ _ _ _ (getCurrentSessionId_run w)).
  set (sessionId := orStringOpt context_sessionId (currentSessionId w)) in *.
  assert (truthy (orStringOpt sessionId (currentSessionId w)) = truthy sessionId) as Hidem
    by (unfold sessionId; rewrite orStringOpt_idem; reflexivity).
  rewrite (bind_run _ _ _ _ _ (getMessages_run_missing sessionId w
             ltac:(rewrite Hidem; exact Hid))).
  set (h := arrays w) in *. set (n := length h).
  rewrite (bind_readArray n []) by (simpl; apply lookup_length_app).
  unfold summarizeAllMessages. rewrite bind_bind, Hok.
  simpl liftTry. rewrite !bind_ret.
  rewrite (bind_filterArray _ n []) by (simpl; apply lookup_length_app).
  simpl arrays. rewrite with_arrays_twice, <- app_assoc. simpl app.
  rewrite (bind_filterArray _ n []) by (simpl; apply lookup_length_app).
  simpl arrays. rewrite with_arrays_twice, <- app_assoc. simpl app.
  replace (length (h ++ [[]])) with (n + 1) by (rewrite length_app; reflexivity).
  replace (length (h ++ [[]; []])) with (n + 2) by (rewrite length_app; reflexivity).
  rewrite (bind_readArray (n + 1) [])
    by (simpl; unfold n; rewrite lookup_past; reflexivity).
  rewrite (bind_readArray (n + 2) [])
    by (simpl; unfold n; rewrite lookup_past; reflexivity).
  rewrite bind_newArray. simpl arrays. rewrite with_arrays_twice, <- app_assoc. simpl app.
  unfold replaceMessages, getWorld, mbind, M_bind.
  cbn [currentSessionId sessions with_arrays set_arrays].
  rewrite Hidem.
  destruct (truthy sessionId) as [id|].
  - rewrite Hid. eexists. split; [reflexivity|]. eexists; reflexivity.
  - eexists. split; [reflexivity|]. eexists; reflexivity.
Qed.

Lemma handlerCompact_without_session_witness :
  exists w',
    run (handlerCompact sampleStringify (answering "nothing") sampleCompactor ""
           (Some "s3"))
        (twoSessions [HumanMessage "a"] [AIMessage "b"])
      = (Throw (Error ("세션을 찾을 수 없습니다: " +:+ "s3")), w') /\
    sessions w' = sessions (twoSessions [HumanMessage "a"] [AIMessage "b"]).
Proof.
  destruct (handlerCompact_without_session sampleStringify (answering "nothing")
              sampleCompactor "" (Some "s3") (CString "nothing")
              (twoSessions [HumanMessage "a"] [AIMessage "b"]) eq_refl eq_refl)
    as [w' [Hrun [more Hext]]].
  exists w'. split; [exact Hrun|]. rewrite Hext. reflexivity.
Defined.

(** ** The command registry *)

(** X21.  A command registered with [register] is the one [execute] runs
    under that name, with the arguments and the context given: it replaces
    whatever the name stood for, a template loaded from a file included,
    and the other names stand for what they stood for. *)
Theorem register_then_execute replaceArguments registry commandName handler description :
  (forall args context_sessionId w,
     run (execute replaceArguments (register registry commandName handler description)
            commandName args context_sessionId) w
     = run (handler args context_sessionId) w) /\
  (forall other args context_sessionId w,
     other <> commandName ->
     run (execute replaceArguments (register registry commandName handler description)
            other args context_sessionId) w
     = run (execute replaceArguments registry other args context_sessionId) w).
Proof.
  split.
  - intros args context_sessionId w. unfold execute, register.
    rewrite lookup_insert_eq. reflexivity.
  - intros other args context_sessionId w Hother. unfold execute, register.
    rewrite lookup_insert_ne by congruence. reflexivity.
Qed.

(** X22.  [execute] does not throw on a name that is not registered, nor on
    a template command whose template is missing or empty: it returns an
    error result naming the command, and the store is as it was.  A
    template command with a template returns the prompt and runs no
    handler. *)
Theorem execute_without_handler replaceArguments registry commandName args
    context_sessionId w :
  match registry !! commandName with
  | None => True
  | Some command => commands.type command = commands.type_template
  end ->
  run (execute replaceArguments registry commandName args context_sessionId) w =
  (Return match registry !! commandName with
          | None => error ("❌ 명령어를 찾을 수 없습니다: " +:+ commandName)
          | Some command =>
              match commands.template command with
              | Some template =>
                  if String.eqb template ""
                  then error ("❌ 템플릿이 없습니다: " +:+ commandName)
                  else prompt (replaceArguments template args)
              | None => error ("❌ 템플릿이 없습니다: " +:+ commandName)
              end
          end, w).
Proof.
  intros H. unfold run, execute.
  destruct (registry !! commandName) as [command|]; [|reflexivity].
  rewrite H. unfold truthy, orStringOpt.
  destruct (commands.template command) as [template|]; [|reflexivity].
  destruct (String.eqb template ""); reflexivity.
Qed.

Lemma execute_without_handler_witness :
  run (execute (fun template args => template)
         (register ∅ "status" (handlerStatus sampleCompactor) "session status")
         "compact" "" None) (sampleWorld [])
  = (Return (error ("❌ 명령어를 찾을 수 없습니다: " +:+ "compact")), sampleWorld []).
Proof.
  pose proof (execute_without_handler (fun template args => template)
                (register ∅ "status" (handlerStatus sampleCompactor) "session status")
                "compact" "" None (sampleWorld [])) as H.
  lapply H; [intros Hrun; exact Hrun | vm_compute; exact I].
Defined.

(** ** Compacting again *)

Lemma leadingSystem_app_system before after :
  forallb isSystemMessage before = true ->
  leadingSystem (before ++ after) = before ++ leadingSystem after.
Proof.
  induction before as [|m before IH]; simpl; [reflexivity|].
  destruct (isSystemMessage m); simpl; [|discriminate].
  intros H. rewrite IH by exact H. reflexivity.
Qed.

Lemma leadingSystem_all_system ms : forallb isSystemMessage (leadingSystem ms) = true.
Proof.
  induction ms as [|m ms IH]; simpl; [reflexivity|].
  destruct (isSystemMessage m) eqn:E; simpl; [rewrite E; exact IH|reflexivity].
Qed.

Lemma leadingSystem_length ms : length (leadingSystem ms) <= length ms.
Proof.
  rewrite <- (leading_after_system ms) at 2. rewrite length_app. lia.
Qed.

Lemma middleOf_short this ms :
  (exists m, In m ms /\ _getType m <> system) ->
  (Z.of_nat (length ms - length (leadingSystem ms))
   <= preserveRecentCount (options this))%Z ->
  middleOf this ms = [].
Proof.
  intros Hnon Hshort.
  unfold middleOf, nonSystemOf. rewrite (proj2 (forallb_system_false ms) Hnon).
  rewrite afterSystem_length_eq.
  destruct (Z.ltb_spec (preserveRecentCount (options this))
              (Z.of_nat (length ms - length (leadingSystem ms)))); [lia|reflexivity].
Qed.

(** X23.  Compacting is idempotent: when the history ends with a message
    that is not a system message and at least one recent message is kept,
    compacting the array a compaction returned changes nothing, forced or
    not; the second call returns [compacted = false] and that same array,
    without calling the model. *)
Theorem compactMessages_twice
    stringify invoke this (input : ref) force force' (ms : list BaseMessage)
    final w r1 w1 :
  arrays w !! input = Some ms ->
  (1 <= preserveRecentCount (options this))%Z ->
  last ms = Some final ->
  _getType final <> system ->
  run (compactMessages stringify invoke this input force) w = (Return r1, w1) ->
  compacted r1 = true ->
  exists r2 w2,
    run (compactMessages stringify invoke this (messages r1) force') w1 = (Return r2, w2) /\
    compacted r2 = false /\
    messages r2 = messages r1 /\
    originalCount r2 = compactedCount r2 /\
    arrays w2 !! messages r1 = arrays w1 !! messages r1.
Proof.
  intros Hm Hk Hlast Hfinal Hrun1 Hc1.
  destruct (compactMessages_compacted_array stringify invoke this input force ms w r1 w1
              Hm Hrun1 Hc1) as [Hmid [_ [summary [Harray Hestimate]]]].
  set (k := preserveRecentCount (options this)) in *.
  assert (0 <= k)%Z as Hk0 by lia.
  pose proof (recentOf_last this ms Hk0 Hmid) as Hrecent. fold k in Hrecent.
  set (cm := leadingSystem ms ++ [summaryMessage summary] ++ recentOf this ms) in *.
  assert (length (recentOf this ms) <= Z.to_nat k) as Hrlen
    by (rewrite Hrecent, length_drop; lia).
  assert (In final (recentOf this ms)) as Hin.
  { rewrite Hrecent.
    destruct (exists_last (l := ms)) as [front [x Hx]].
    { intros ->. discriminate Hlast. }
    subst ms. rewrite last_snoc in Hlast. injection Hlast as ->.
    rewrite length_app. simpl length.
    rewrite drop_app.
    apply in_or_app. right.
    replace (length front + 1 - Z.to_nat k - length front) with 0 by lia.
    simpl. auto. }
  assert (exists m, In m cm /\ _getType m <> system) as Hnon.
  { exists final. split; [|exact Hfinal]. unfold cm. rewrite !in_app_iff. auto. }
  assert (Z.of_nat (length cm - length (leadingSystem cm)) <= k)%Z as Hshort.
  { unfold cm. rewrite (leadingSystem_app_system _ _ (leadingSystem_all_system ms)).
    change (leadingSystem ([summaryMessage summary] ++ recentOf this ms))
      with (summaryMessage summary :: leadingSystem (recentOf this ms)).
    rewrite !length_app. simpl length. lia. }
  pose proof (middleOf_short this cm Hnon Hshort) as Hmid2.
  pose proof (compactMessages_extends stringify invoke this (messages r1) force' cm w1 Harray)
    as Hext.
  rewrite (compactMessages_run stringify invoke this _ _ _ _ Harray) in *. cbv zeta in *.
  rewrite Hestimate in *.
  rewrite Hmid2 in *. simpl length in *. simpl Nat.eqb in *.
  destruct (negb force' && negb _).
  - eexists _, _. split; [reflexivity|]. unfold unchangedResult.
    cbn [compacted messages originalCount compactedCount]. repeat split; auto.
  - eexists _, _. split; [reflexivity|]. unfold unchangedResult.
    cbn [compacted messages originalCount compactedCount]. repeat split; auto.
    rewrite Harray. simpl snd in Hext. eapply extends_lookup; eauto.
Qed.

Lemma compactMessages_twice_witness :
  let history := [SystemMessage "You are a coding agent."; HumanMessage "list the files";
                  AIMessage "src and docs"; HumanMessage "thanks"; AIMessage "ok"] in
  exists r1 w1 r2 w2,
    run (compactMessages sampleStringify (answering "files") sampleCompactor 0 true)
        (sampleWorld history) = (Return r1, w1) /\
    compacted r1 = true /\
    run (compactMessages sampleStringify (answering "files") sampleCompactor (messages r1)
           true) w1 = (Return r2, w2) /\
    compacted r2 = false /\
    messages r2 = messages r1.
Proof.
  cbv zeta.
  assert (exists r1 w1,
            run (compactMessages sampleStringify (answering "files") sampleCompactor 0 true)
                (sampleWorld
                   [SystemMessage "You are a coding agent."; HumanMessage "list the files";
                    AIMessage "src and docs"; HumanMessage "thanks"; AIMessage "ok"])
            = (Return r1, w1) /\ compacted r1 = true) as [r1 [w1 [Hrun1 Hc1]]].
  { eexists _, _. split; [vm_compute; reflexivity|reflexivity]. }
  destruct (compactMessages_twice sampleStringify (answering "files") sampleCompactor
              0 true true
              [SystemMessage "You are a coding agent."; HumanMessage "list the files";
               AIMessage "src and docs"; HumanMessage "thanks"; AIMessage "ok"]
              (AIMessage "ok")
              (sampleWorld
                 [SystemMessage "You are a coding agent."; HumanMessage "list the files";
                  AIMessage "src and docs"; HumanMessage "thanks"; AIMessage "ok"])
              r1 w1
              eq_refl ltac:(simpl; lia) eq_refl ltac:(discriminate) Hrun1 Hc1)
    as [r2 [w2 [Hrun2 [Hc2 [Hsame _]]]]].
  exists r1, w1, r2, w2.
  split; [exact Hrun1|]. split; [exact Hc1|]. split; [exact Hrun2|].
  split; [exact Hc2|exact Hsame].
Defined.

(** ** A history the tokenizer rejects *)

(** X24.  When the tokenizer rejects a text of the history,
    [compactMessages] throws its exception before anything else, forced or
    not: nothing is allocated, the model is not called, and the compact
    node on a session holding that history throws the same exception and
    leaves the store as it was. *)
Theorem compactMessages_rejected_history
    stringify invoke this (input : ref) force (ms : list BaseMessage) e w :
  arrays w !! input = Some ms ->
  estimateTokens this ms = Thrown e ->
  run (compactMessages stringify invoke this input force) w = (Throw e, w) /\
  (forall state_sessionId id s,
     truthy (orStringOpt (Some state_sessionId) (currentSessionId w)) = Some id ->
     sessions w !! id = Some s ->
     session.messages s = input ->
     run (createCompactNode stringify invoke this state_sessionId) w = (Throw e, w)).
Proof.
  intros Hm Hthrown.
  assert (run (compactMessages stringify invoke this input force) w = (Throw e, w)) as Hrun.
  { rewrite (compactMessages_run stringify invoke this _ _ _ _ Hm), Hthrown. reflexivity. }
  split; [exact Hrun|].
  intros state_sessionId id s Hid Hs Hsame. subst input.
  rewrite (createCompactNode_run stringify invoke this _ _ _ _ _ Hid Hs Hm).
  rewrite (compactMessages_run stringify invoke this _ _ _ _ Hm), Hthrown. reflexivity.
Qed.

Lemma compactMessages_rejected_history_witness :
  let history := [SystemMessage "You are a coding agent.";
                  HumanMessage "what does <|endoftext|> stand for?";
                  AIMessage "it marks the end of a document"; HumanMessage "thanks";
                  AIMessage "ok"] in
  estimateTokens strictCompactor history = Thrown disallowedSpecialToken /\
  run (compactMessages sampleStringify (answering "done") strictCompactor 0 true)
      (sampleWorld history) = (Throw disallowedSpecialToken, sampleWorld history) /\
  run (createCompactNode sampleStringify (answering "done") strictCompactor "s1")
      (sampleWorld history) = (Throw disallowedSpecialToken, sampleWorld history).
Proof.
  cbv zeta.
  assert (estimateTokens strictCompactor
            [SystemMessage "You are a coding agent.";
             HumanMessage "what does <|endoftext|> stand for?";
             AIMessage "it marks the end of a document"; HumanMessage "thanks";
             AIMessage "ok"] = Thrown disallowedSpecialToken) as Hthrown
    by (vm_compute; reflexivity).
  destruct (compactMessages_rejected_history sampleStringify (answering "done")
              strictCompactor 0 true _ disallowedSpecialToken
              (sampleWorld
                 [SystemMessage "You are a coding agent.";
                  HumanMessage "what does <|endoftext|> stand for?";
                  AIMessage "it marks the end of a document"; HumanMessage "thanks";
                  AIMessage "ok"])
              eq_refl Hthrown) as [Hrun Hnode].
  split; [exact Hthrown|]. split; [exact Hrun|].
  exact (Hnode "s1" "s1" (session.mkSession "s1" 0 (session.mkMetadata 0 0))
           eq_refl eq_refl eq_refl).
Defined.
